(** * Stellar-Scout: the client-side dataset store, filters and renderers

    A shallow embedding of [script.js]: the exoplanet dataset store
    ([currentPage], [allExoplanets], [filteredExoplanets]), the paginated
    loader, the search and category filters, the planet-type badge and the
    prediction panel.

    Conventions of the embedding.
    - A JavaScript Number is a binary64 [float]; [<], [<=], [===] are the
      IEEE comparisons [PrimFloat.ltb], [PrimFloat.leb], [PrimFloat.eqb].
    - A JavaScript string is a [string] of code units in the ASCII range;
      on such strings [toLowerCase] maps [A]-[Z] to [a]-[z] and leaves every
      other code unit alone.  The Unicode case tables of the engine are not
      modelled: a property that depends on what [toLowerCase] returns is
      stated for strings that pass [isAscii].
    - An optional JSON property is an [option]: [None] stands for a property
      that is absent or [null] (both are falsy and both render as Unknown).
    - An array is a [JsArray]: its elements together with the identity of the
      allocation, so that [a === b] on arrays is equality of [ref].
    - The page keeps its globals and the DOM nodes it touches in a [World];
      every function of the script is a [World -> World] transformer, and an
      [async] function is cut at its [await].
    - A response whose body is not of the documented shape can leave the
      two arrays [undefined]; such a page is a [PageAfterLoad], and a
      handler that runs on it ends in a [Completion]. *)

From Stdlib Require Import Bool List ZArith Lia String Ascii Floats.
From Stdlib Require Import DecimalString.
From Stdlib Require DecimalPos DecimalN DecimalFacts.
From Stdlib Require Import QArith Qround Qabs Qpower Lqa.
Import ListNotations.

Set Warnings "-inexact-float".
Open Scope string_scope.

(* ------------------------------------------------------------------ *)
(** ** Numbers *)

Module JsNumber.

(** [ToBoolean] on a Number: [+0], [-0] and [NaN] are falsy. *)
Definition toBoolean (x : float) : bool :=
  negb (PrimFloat.is_zero x || PrimFloat.is_nan x).

Definition lt (x y : float) : bool := PrimFloat.ltb x y.
Definition le (x y : float) : bool := PrimFloat.leb x y.
Definition gt (x y : float) : bool := PrimFloat.ltb y x.
Definition ge (x y : float) : bool := PrimFloat.leb y x.
Definition strictEq (x y : float) : bool := PrimFloat.eqb x y.

(** The exact value [m * 2^e] of a non-negative finite float as a
    rational; [None] for NaN, the infinities and negative numbers. *)
Definition magnitude (x : float) : option Q :=
  match Prim2SF x with
  | S754_zero _ => Some 0%Q
  | S754_finite false m e =>
      Some (match e with
            | Z0 => Z.pos m # 1
            | Zpos p => Z.pos m * 2 ^ Z.pos p # 1
            | Zneg p => Z.pos m # 2 ^ p
            end)
  | _ => None
  end.

(** Step 11 of [Number.prototype.toFixed]: the integer [n] for which
    [n / 10^f - x] is as close to zero as possible, the larger one when
    there are two: the floor of [x * 10^f + 1/2]. *)
Definition nearestScaled (f : nat) (x : Q) : Z :=
  Qfloor (x * inject_Z (10 ^ Z.of_nat f) + (1 # 2)).

Definition decimalDigits (n : Z) : string :=
  NilZero.string_of_uint (N.to_uint (Z.to_N n)).

Fixpoint zeros (k : nat) : string :=
  match k with
  | O => ""
  | S k' => String "0" (zeros k')
  end.

(** Step 11 continued: the digits of [n], padded on the left with zeros to
    at least [f + 1] digits, with the decimal point before the last [f]. *)
Definition fixedDigits (f : nat) (n : Z) : string :=
  let m := if (n =? 0)%Z then "0" else decimalDigits n in
  match f with
  | O => m
  | _ =>
      let k := String.length m in
      let m := if Nat.leb k f then zeros (f + 1 - k) ++ m else m in
      let k := String.length m in
      substring 0 (k - f) m ++ "." ++ substring (k - f) f m
  end.

Section ToFixed.

(** [Number::toString] on a finite number: [toFixed] falls back on it for
    magnitudes of at least 10^21; its shortest-digits algorithm is left to
    the engine. *)
Variable NumberToString : float -> string.

(** [x.toFixed(f)] for [0 <= f <= 100], after ECMA-262,
    Number.prototype.toFixed. *)
Definition toFixed (f : nat) (x : float) : string :=
  if PrimFloat.is_nan x then "NaN"
  else if PrimFloat.is_infinity x then
    (if PrimFloat.ltb x 0 then "-Infinity" else "Infinity")
  else
    let s := if PrimFloat.ltb x 0 then "-" else "" in
    let ax := PrimFloat.abs x in
    if PrimFloat.leb 1e21 ax then s ++ NumberToString ax
    else
      match magnitude ax with
      | Some r => s ++ fixedDigits f (nearestScaled f r)
      | None => s ++ NumberToString ax
      end.

End ToFixed.

End JsNumber.

(* ------------------------------------------------------------------ *)
(** ** Strings *)

Module JsString.

Definition toLowerUnit (c : ascii) : ascii :=
  let n := nat_of_ascii c in
  if (Nat.leb 65 n && Nat.leb n 90)%bool then ascii_of_nat (n + 32) else c.

Fixpoint toLowerCase (s : string) : string :=
  match s with
  | EmptyString => EmptyString
  | String c s' => String (toLowerUnit c) (toLowerCase s')
  end.

(** [s.includes(t)]: [t] occurs in [s] as a contiguous run of code units. *)
Fixpoint includes (s t : string) : bool :=
  String.prefix t s ||
  match s with
  | EmptyString => false
  | String _ s' => includes s' t
  end.

(** [ToBoolean] on a string: only the empty string is falsy. *)
Definition toBoolean (s : string) : bool :=
  match s with
  | EmptyString => false
  | String _ _ => true
  end.

End JsString.

(** Truthiness of an optional property. *)
Definition truthyNumber (v : option float) : bool :=
  match v with
  | Some x => JsNumber.toBoolean x
  | None => false
  end.

(** [v || d] for an optional string [v] and a string [d]. *)
Definition orDefault (v : option string) (d : string) : string :=
  match v with
  | Some s => if JsString.toBoolean s then s else d
  | None => d
  end.

(* ------------------------------------------------------------------ *)
(** ** Data model *)

Record Exoplanet := mkExoplanet {
  name : string;
  hostname : option string;
  discoverymethod : option string;
  disc_year : option float;
  sy_dist : option float;
  pl_rade : option float;
  pl_bmasse : option float;
  pl_orbper : option float;
  st_teff : option float;
  st_rad : option float
}.

(** The body of [GET /exoplanets?page=..&limit=12]. *)
Record PageData := mkPageData {
  exoplanets : list Exoplanet;
  has_more : bool
}.

(** What the two awaits of [loadExoplanets] can produce: [fetch] rejects,
    [response.json()] rejects, or the body decodes to a page of the
    documented shape.  Bodies of another shape are the further cases of
    [FetchOutcome] below. *)
Inductive FetchResult :=
| FetchRejected
| JsonRejected
| Resolved (data : PageData).

(** The body of [POST /predict]. *)
Record PredictionResult := mkPredictionResult {
  prediction : float;
  probability : float;
  planet_type : option string;
  habitable_zone : option string
}.

Record JsArray := mkJsArray {
  ref : nat;
  items : list Exoplanet
}.

(** Children of [#exoplanetGrid]. *)
Inductive GridNode :=
| LoadingSpinner
| NoResultsMessage
| LoadFailedMessage
| PlanetCard (planet : Exoplanet) (badge : string).

Inductive Display := DisplayUnset | DisplayBlock | DisplayNone.

Record World := mkWorld {
  currentPage : Z;
  allExoplanets : JsArray;
  filteredExoplanets : JsArray;
  searchInput : string;
  discoveryMethodFilter : string;
  habitableFilter : string;
  exoplanetGrid : list GridNode;
  loadMoreBtn : Display;
  nextRef : nat;
  inFlight : list Z
}.

(** Assignments to the globals and to the DOM nodes. *)
Definition set_currentPage (v : Z) (w : World) : World :=
  mkWorld v (allExoplanets w) (filteredExoplanets w) (searchInput w)
    (discoveryMethodFilter w) (habitableFilter w) (exoplanetGrid w)
    (loadMoreBtn w) (nextRef w) (inFlight w).

Definition set_allExoplanets (v : JsArray) (w : World) : World :=
  mkWorld (currentPage w) v (filteredExoplanets w) (searchInput w)
    (discoveryMethodFilter w) (habitableFilter w) (exoplanetGrid w)
    (loadMoreBtn w) (nextRef w) (inFlight w).

Definition set_filteredExoplanets (v : JsArray) (w : World) : World :=
  mkWorld (currentPage w) (allExoplanets w) v (searchInput w)
    (discoveryMethodFilter w) (habitableFilter w) (exoplanetGrid w)
    (loadMoreBtn w) (nextRef w) (inFlight w).

Definition set_searchInput (v : string) (w : World) : World :=
  mkWorld (currentPage w) (allExoplanets w) (filteredExoplanets w) v
    (discoveryMethodFilter w) (habitableFilter w) (exoplanetGrid w)
    (loadMoreBtn w) (nextRef w) (inFlight w).

Definition set_discoveryMethodFilter (v : string) (w : World) : World :=
  mkWorld (currentPage w) (allExoplanets w) (filteredExoplanets w)
    (searchInput w) v (habitableFilter w) (exoplanetGrid w)
    (loadMoreBtn w) (nextRef w) (inFlight w).

Definition set_habitableFilter (v : string) (w : World) : World :=
  mkWorld (currentPage w) (allExoplanets w) (filteredExoplanets w)
    (searchInput w) (discoveryMethodFilter w) v (exoplanetGrid w)
    (loadMoreBtn w) (nextRef w) (inFlight w).

Definition set_exoplanetGrid (v : list GridNode) (w : World) : World :=
  mkWorld (currentPage w) (allExoplanets w) (filteredExoplanets w)
    (searchInput w) (discoveryMethodFilter w) (habitableFilter w) v
    (loadMoreBtn w) (nextRef w) (inFlight w).

Definition set_loadMoreBtn (v : Display) (w : World) : World :=
  mkWorld (currentPage w) (allExoplanets w) (filteredExoplanets w)
    (searchInput w) (discoveryMethodFilter w) (habitableFilter w)
    (exoplanetGrid w) v (nextRef w) (inFlight w).

Definition set_inFlight (v : list Z) (w : World) : World :=
  mkWorld (currentPage w) (allExoplanets w) (filteredExoplanets w)
    (searchInput w) (discoveryMethodFilter w) (habitableFilter w)
    (exoplanetGrid w) (loadMoreBtn w) (nextRef w) v.

(** A new array ([filter], a spread literal, a decoded JSON array) gets the
    next free identity. *)
Definition newArray (xs : list Exoplanet) (w : World) : JsArray * World :=
  (mkJsArray (nextRef w) xs,
   mkWorld (currentPage w) (allExoplanets w) (filteredExoplanets w)
     (searchInput w) (discoveryMethodFilter w) (habitableFilter w)
     (exoplanetGrid w) (loadMoreBtn w) (S (nextRef w)) (inFlight w)).

(** The page as the script's top level leaves it: [currentPage = 1] and two
    distinct empty arrays. *)
Definition initialWorld : World :=
  mkWorld 1 (mkJsArray 0 []) (mkJsArray 1 []) "" "" "" [] DisplayUnset 2 [].

(* ------------------------------------------------------------------ *)
(** ** View renderer *)

(** [getPlanetType(planet)] *)
Definition getPlanetType (planet : Exoplanet) : string :=
  if negb (truthyNumber (pl_rade planet)) then "Unknown Type"
  else
    match pl_rade planet with
    | Some radius =>
        if JsNumber.lt radius 1.25 then "Earth-like"
        else if JsNumber.lt radius 2.0 then "Super-Earth"
        else if JsNumber.lt radius 6.0 then "Neptune-like"
        else "Jupiter-like"
    | None => "Unknown Type"
    end.

(** [createPlanetCard(planet)]: the card keeps the planet (its click handler
    closes over it) and the badge; the four info rows are templates over the
    same planet. *)
Definition createPlanetCard (planet : Exoplanet) : GridNode :=
  PlanetCard planet (getPlanetType planet).

(** [displayExoplanets(exoplanets)] *)
Definition displayExoplanets (xs : JsArray) (w : World) : World :=
  if Nat.eqb (List.length (items xs)) 0 then
    set_exoplanetGrid [NoResultsMessage] w
  else
    set_exoplanetGrid (map createPlanetCard (items xs)) w.

(** [appendExoplanets(exoplanets)] *)
Definition appendExoplanets (xs : JsArray) (w : World) : World :=
  set_exoplanetGrid (exoplanetGrid w ++ map createPlanetCard (items xs)) w.

(** The panel [displayPredictionResult] writes into [#resultsPanel]. *)
Record PredictionPanel := mkPredictionPanel {
  result_status : bool;          (* the check mark (true) or the cross *)
  result_title : string;
  result_caption : string;
  confidence_fill_width : string;
  confidence_fill_text : string;
  detail_prediction : string;
  detail_confidence : string;
  detail_planet_type : string;
  detail_habitability : string
}.

Section Prediction.

Variable NumberToString : float -> string.

(** [const hasExoplanet] of [displayPredictionResult] *)
Definition hasExoplanet (result : PredictionResult) : bool :=
  JsNumber.strictEq (prediction result) 1 ||
  JsNumber.gt (probability result) 0.5.

(** [const confidence] of [displayPredictionResult] *)
Definition confidence (result : PredictionResult) : string :=
  JsNumber.toFixed NumberToString 1 (probability result * 100)%float.

(** [displayPredictionResult(result)] *)
Definition displayPredictionResult (result : PredictionResult)
  : PredictionPanel :=
  let hasExoplanet := hasExoplanet result in
  let confidence := confidence result in
  mkPredictionPanel
    hasExoplanet
    (if hasExoplanet then "Exoplanet Detected!" else "No Exoplanet Detected")
    (if hasExoplanet then "AI detected signs of an exoplanet"
     else "AI found no strong exoplanet signals")
    (confidence ++ "%")
    (confidence ++ "% Confidence")
    (if hasExoplanet then "Positive" else "Negative")
    (confidence ++ "%")
    (orDefault (planet_type result) "Unknown")
    (orDefault (habitable_zone result) "Unknown").

End Prediction.

(* ------------------------------------------------------------------ *)
(** ** Search and filters *)

(** The callback of [allExoplanets.filter] in [searchExoplanets]. *)
Definition searchCallback (searchTerm : string) (planet : Exoplanet) : bool :=
  JsString.includes (JsString.toLowerCase (name planet)) searchTerm ||
  match hostname planet with
  | Some h =>
      JsString.toBoolean h &&
      JsString.includes (JsString.toLowerCase h) searchTerm
  | None => false
  end.

(** [searchExoplanets()] *)
Definition searchExoplanets (w : World) : World :=
  let searchTerm := JsString.toLowerCase (searchInput w) in
  let w :=
    if String.eqb searchTerm "" then
      set_filteredExoplanets (allExoplanets w) w
    else
      let (r, w) :=
        newArray (filter (searchCallback searchTerm) (items (allExoplanets w))) w
      in set_filteredExoplanets r w
  in displayExoplanets (filteredExoplanets w) w.

(** [let matchesMethod] of the callback in [applyFilters], after its [if]. *)
Definition matchesMethod (methodFilter : string) (planet : Exoplanet) : bool :=
  match discoverymethod planet with
  | Some dm =>
      if JsString.toBoolean methodFilter && JsString.toBoolean dm
      then JsString.includes dm methodFilter
      else true
  | None => true
  end.

(** [let matchesHabitable] of the callback in [applyFilters], after its
    [if]. *)
Definition matchesHabitable (habitableFilter : string) (planet : Exoplanet)
  : bool :=
  match pl_rade planet with
  | Some radius =>
      if JsString.toBoolean habitableFilter && JsNumber.toBoolean radius
      then
        if String.eqb habitableFilter "habitable" then
          JsNumber.ge radius 0.5 && JsNumber.le radius 1.5
        else if String.eqb habitableFilter "hot" then
          JsNumber.lt radius 0.5
        else if String.eqb habitableFilter "cold" then
          JsNumber.gt radius 1.5
        else true
      else true
  | None => true
  end.

(** The callback of [allExoplanets.filter] in [applyFilters]. *)
Definition filterCallback (methodFilter habitableFilter : string)
    (planet : Exoplanet) : bool :=
  matchesMethod methodFilter planet && matchesHabitable habitableFilter planet.

(** [applyFilters()] *)
Definition applyFilters (w : World) : World :=
  let methodFilter := discoveryMethodFilter w in
  let habitableFilter := habitableFilter w in
  let (r, w) :=
    newArray (filter (filterCallback methodFilter habitableFilter)
                (items (allExoplanets w))) w in
  let w := set_filteredExoplanets r w in
  displayExoplanets (filteredExoplanets w) w.

(** [resetFilters()] *)
Definition resetFilters (w : World) : World :=
  let w := set_searchInput "" w in
  let w := set_discoveryMethodFilter "" w in
  let w := set_habitableFilter "" w in
  let w := set_filteredExoplanets (allExoplanets w) w in
  displayExoplanets (filteredExoplanets w) w.

(* ------------------------------------------------------------------ *)
(** ** Paginated loading *)

(** [loadExoplanets(page)] up to its first [await]. *)
Definition loadExoplanets_request (page : Z) (w : World) : World :=
  if (page =? 1)%Z then set_exoplanetGrid [LoadingSpinner] w else w.

(** [loadExoplanets(page)] from the point its awaits settle: the [try] body
    on a decoded response, the [catch] body on a rejection. *)
Definition loadExoplanets_settle (page : Z) (r : FetchResult) (w : World)
  : World :=
  match r with
  | Resolved data =>
      let (fetched, w) := newArray (exoplanets data) w in
      let w :=
        if (page =? 1)%Z then
          let w := set_allExoplanets fetched w in
          let w := set_filteredExoplanets fetched w in
          displayExoplanets (filteredExoplanets w) w
        else
          let (a, w) :=
            newArray (items (allExoplanets w) ++ items fetched) w in
          let w := set_allExoplanets a w in
          let (f, w) :=
            newArray (items (filteredExoplanets w) ++ items fetched) w in
          let w := set_filteredExoplanets f w in
          appendExoplanets fetched w in
      let w := set_currentPage page w in
      if has_more data then set_loadMoreBtn DisplayBlock w
      else set_loadMoreBtn DisplayNone w
  | FetchRejected | JsonRejected =>
      set_exoplanetGrid [LoadFailedMessage] w
  end.

(** [loadExoplanets(page)] run to completion with nothing else scheduled
    between the request and its response. *)
Definition loadExoplanets (page : Z) (r : FetchResult) (w : World) : World :=
  loadExoplanets_settle page r (loadExoplanets_request page w).

(** [loadMoreExoplanets()], likewise run to completion. *)
Definition loadMoreExoplanets (r : FetchResult) (w : World) : World :=
  loadExoplanets (currentPage w + 1) r w.

(* ------------------------------------------------------------------ *)
(** ** Responses of another shape *)

(** [response.json()] also resolves when the body is JSON of another shape
    than [PageData], such as the error body of a 404 or 500 answer
    ([fetch] does not reject on an HTTP error status, and the script does
    not read [response.ok]).  Two shapes are told apart by where the [try]
    body of [loadExoplanets] throws: the body [null], on which reading
    [data.exoplanets] throws, and any other value without an [exoplanets]
    member, on which [data.exoplanets] is [undefined].  An [exoplanets]
    member of another type than an array of planet records is not
    modelled. *)
Inductive FetchOutcome :=
| Outcome (r : FetchResult)
| ResolvedNull
| ResolvedWithoutExoplanets.

(** The [catch] block of [loadExoplanets] runs. *)
Definition caught (o : FetchOutcome) : bool :=
  match o with
  | Outcome (Resolved _) => false
  | _ => true
  end.

Module Bare.

(** The page when [allExoplanets] and [filteredExoplanets] both hold
    [undefined]: the other globals and the DOM nodes of a [World]. *)
Record Page := mkPage {
  currentPage : Z;
  searchInput : string;
  discoveryMethodFilter : string;
  habitableFilter : string;
  exoplanetGrid : list GridNode;
  loadMoreBtn : Display;
  nextRef : nat;
  inFlight : list Z
}.

End Bare.

Definition withoutArrays (w : World) : Bare.Page :=
  Bare.mkPage (currentPage w) (searchInput w) (discoveryMethodFilter w)
    (habitableFilter w) (exoplanetGrid w) (loadMoreBtn w) (nextRef w)
    (inFlight w).

Inductive PageAfterLoad :=
| ArraysIntact (w : World)
| ArraysUndefined (p : Bare.Page).

(** [loadExoplanets(page)] from the point its awaits settle, on every
    outcome.  On [null] the read of [data.exoplanets] throws before any
    assignment.  On a body without [exoplanets], for page 1 the two
    assignments of lines 135-136 store [undefined] in both globals and
    [displayExoplanets(undefined)] throws on [exoplanets.length]; for
    another page the spread of [undefined] throws before the assignment of
    line 139.  The [catch] block then writes the failure message into the
    grid; [currentPage] and the button are not reached. *)
Definition loadExoplanets_settle_outcome (page : Z) (o : FetchOutcome)
    (w : World) : PageAfterLoad :=
  match o with
  | Outcome r => ArraysIntact (loadExoplanets_settle page r w)
  | ResolvedNull => ArraysIntact (set_exoplanetGrid [LoadFailedMessage] w)
  | ResolvedWithoutExoplanets =>
      if (page =? 1)%Z then
        ArraysUndefined
          (withoutArrays (set_exoplanetGrid [LoadFailedMessage] w))
      else ArraysIntact (set_exoplanetGrid [LoadFailedMessage] w)
  end.

(** [loadExoplanets(page)] run to completion, on every outcome. *)
Definition loadExoplanets_outcome (page : Z) (o : FetchOutcome) (w : World)
  : PageAfterLoad :=
  loadExoplanets_settle_outcome page o (loadExoplanets_request page w).

(** How a handler ends: it returns, or it throws and leaves the page as it
    was at the throw. *)
Inductive Completion :=
| Returned (p : PageAfterLoad)
| Threw (p : PageAfterLoad).

(** The three handlers on the page a load has left.  With [undefined] in
    [allExoplanets], [searchExoplanets] throws on [allExoplanets.filter],
    or for an empty term in [displayExoplanets] on [exoplanets.length];
    [applyFilters] throws on [allExoplanets.filter]; [resetFilters] clears
    the three controls and then throws in [displayExoplanets]. *)
Definition searchExoplanets_after (p : PageAfterLoad) : Completion :=
  match p with
  | ArraysIntact w => Returned (ArraysIntact (searchExoplanets w))
  | ArraysUndefined u => Threw (ArraysUndefined u)
  end.

Definition applyFilters_after (p : PageAfterLoad) : Completion :=
  match p with
  | ArraysIntact w => Returned (ArraysIntact (applyFilters w))
  | ArraysUndefined u => Threw (ArraysUndefined u)
  end.

Definition resetFilters_after (p : PageAfterLoad) : Completion :=
  match p with
  | ArraysIntact w => Returned (ArraysIntact (resetFilters w))
  | ArraysUndefined u =>
      Threw (ArraysUndefined
               (Bare.mkPage (Bare.currentPage u) "" "" ""
                  (Bare.exoplanetGrid u) (Bare.loadMoreBtn u)
                  (Bare.nextRef u) (Bare.inFlight u)))
  end.

(* ------------------------------------------------------------------ *)
(** ** The event loop *)

(** What can happen to the page: the user edits a control, a handler of the
    script runs, or an outstanding request settles. *)
Inductive Event :=
| EditSearchInput (text : string)
| EditDiscoveryMethodFilter (value : string)
| EditHabitableFilter (value : string)
| RunSearchExoplanets
| RunApplyFilters
| RunResetFilters
| CallLoadExoplanets              (* [loadExoplanets()] of [loadInitialData] *)
| CallLoadMoreExoplanets
| Settle (i : nat) (r : FetchResult).  (* the [i]-th request in flight *)

Fixpoint removeNth {A : Type} (i : nat) (l : list A) : list A :=
  match l, i with
  | [], _ => []
  | _ :: l', O => l'
  | x :: l', S i' => x :: removeNth i' l'
  end.

Definition step (ev : Event) (w : World) : World :=
  match ev with
  | EditSearchInput text => set_searchInput text w
  | EditDiscoveryMethodFilter value => set_discoveryMethodFilter value w
  | EditHabitableFilter value => set_habitableFilter value w
  | RunSearchExoplanets => searchExoplanets w
  | RunApplyFilters => applyFilters w
  | RunResetFilters => resetFilters w
  | CallLoadExoplanets =>
      let w := loadExoplanets_request 1 w in
      set_inFlight (inFlight w ++ [1%Z]) w
  | CallLoadMoreExoplanets =>
      let page := (currentPage w + 1)%Z in
      let w := loadExoplanets_request page w in
      set_inFlight (inFlight w ++ [page]) w
  | Settle i r =>
      match nth_error (inFlight w) i with
      | Some page =>
          loadExoplanets_settle page r
            (set_inFlight (removeNth i (inFlight w)) w)
      | None => w
      end
  end.

Fixpoint run (trace : list Event) (w : World) : World :=
  match trace with
  | [] => w
  | ev :: trace' => run trace' (step ev w)
  end.

(** The predicate a handler last put into force along a trace: the search
    callback for the term in the box when [searchExoplanets] ran, the filter
    callback for the two selections when [applyFilters] ran, and none (every
    planet passes) after [resetFilters]. *)
Definition appliedBy (ev : Event) (w : World) (current : Exoplanet -> bool)
  : Exoplanet -> bool :=
  match ev with
  | RunSearchExoplanets =>
      searchCallback (JsString.toLowerCase (searchInput w))
  | RunApplyFilters =>
      filterCallback (discoveryMethodFilter w) (habitableFilter w)
  | RunResetFilters => fun _ => true
  | _ => current
  end.

Fixpoint lastApplied (trace : list Event) (w : World)
    (current : Exoplanet -> bool) : Exoplanet -> bool :=
  match trace with
  | [] => current
  | ev :: trace' => lastApplied trace' (step ev w) (appliedBy ev w current)
  end.

(* ------------------------------------------------------------------ *)
(** ** The specification's vocabulary *)

(** [l1] is a subsequence of [l2]: [l2] with some elements left out. *)
Inductive Subsequence {A : Type} : list A -> list A -> Prop :=
| Subsequence_nil : Subsequence [] []
| Subsequence_skip x l1 l2 : Subsequence l1 l2 -> Subsequence l1 (x :: l2)
| Subsequence_keep x l1 l2 :
    Subsequence l1 l2 -> Subsequence (x :: l1) (x :: l2).

(** [t] occurs in [s], case-sensitively. *)
Definition Contains (s t : string) : Prop :=
  exists pre post, s = pre ++ t ++ post.

(** The strings the model of [toLowerCase] is about: every code unit is
    below 128. *)
Fixpoint isAscii (s : string) : bool :=
  match s with
  | EmptyString => true
  | String c s' => Nat.ltb (nat_of_ascii c) 128 && isAscii s'
  end.

(** The name and the host name of every planet are ASCII strings. *)
Definition asciiNames (xs : list Exoplanet) : bool :=
  forallb
    (fun planet =>
       isAscii (name planet) &&
       match hostname planet with
       | Some h => isAscii h
       | None => true
       end) xs.

(** Two code units are the same letter up to case: they are equal, or one
    is a capital [A]-[Z] (65 to 90) and the other the small letter 32
    above it. *)
Definition SameLetter (c d : ascii) : Prop :=
  c = d \/
  (65 <= nat_of_ascii c <= 90 /\ nat_of_ascii d = nat_of_ascii c + 32)%nat \/
  (65 <= nat_of_ascii d <= 90 /\ nat_of_ascii c = nat_of_ascii d + 32)%nat.

(** Two strings are equal up to the case of their letters. *)
Inductive EqualIgnoringCase : string -> string -> Prop :=
| EqualIgnoringCase_empty : EqualIgnoringCase "" ""
| EqualIgnoringCase_unit c d s t :
    SameLetter c d -> EqualIgnoringCase s t ->
    EqualIgnoringCase (String c s) (String d t).

(** [t] occurs in [s] up to the case of letters. *)
Definition ContainsIgnoringCase (s t : string) : Prop :=
  exists pre mid post,
    s = pre ++ mid ++ post /\ EqualIgnoringCase mid t.

(** Section 4.3, search: the name or the host name contains the term. *)
Definition SearchMatches (term : string) (planet : Exoplanet) : Prop :=
  ContainsIgnoringCase (name planet) term \/
  exists h, hostname planet = Some h /\ ContainsIgnoringCase h term.

(** Section 4.3, method filter, read literally: it matches when no filter
    value is chosen, when the planet has no [discoverymethod], and otherwise
    when the method contains the filter value. *)
Definition MethodPasses_literal (methodFilter : string) (planet : Exoplanet)
  : Prop :=
  methodFilter = "" \/
  match discoverymethod planet with
  | None => True
  | Some dm => Contains dm methodFilter
  end.

(** The radius ranges of the three habitability selections. *)
Definition InHabitabilityRange (habitableFilter : string) (radius : float)
  : Prop :=
  (habitableFilter = "habitable" ->
     JsNumber.le 0.5 radius = true /\ JsNumber.le radius 1.5 = true) /\
  (habitableFilter = "hot" -> JsNumber.lt radius 0.5 = true) /\
  (habitableFilter = "cold" -> JsNumber.lt 1.5 radius = true).

(** Section 4.3, habitability filter, read literally: evaluated whenever the
    planet has a [pl_rade]. *)
Definition HabitablePasses_literal (habitableFilter : string)
    (planet : Exoplanet) : Prop :=
  match pl_rade planet with
  | None => True
  | Some radius => InHabitabilityRange habitableFilter radius
  end.

(** The same two tests with "has the property" read as the script reads it:
    an empty [discoverymethod] and a [pl_rade] of zero (or NaN) count as
    missing. *)
Definition MethodPasses (methodFilter : string) (planet : Exoplanet) : Prop :=
  methodFilter = "" \/
  match discoverymethod planet with
  | None => True
  | Some dm => dm = "" \/ Contains dm methodFilter
  end.

Definition HabitablePasses (habitableFilter : string) (planet : Exoplanet)
  : Prop :=
  match pl_rade planet with
  | None => True
  | Some radius =>
      JsNumber.toBoolean radius = true ->
      InHabitabilityRange habitableFilter radius
  end.

(** Section 3, the invariant of the store as the specification words it:
    after every run of the page, [filtered] is what the predicate last put
    into force selects from [all]. *)
Definition FilteredIsImageOfAll : Prop :=
  forall trace : list Event,
    let w := run trace initialWorld in
    items (filteredExoplanets w) =
    filter (lastApplied trace initialWorld (fun _ => true))
      (items (allExoplanets w)).

(** What the script maintains instead: the predicate's image of the part of
    [all] that was there when the predicate was applied, followed by the
    pages appended since. *)
Definition FilteredTracks (P : Exoplanet -> bool) (w : World) : Prop :=
  exists loaded appended,
    items (allExoplanets w) = (loaded ++ appended)%list /\
    items (filteredExoplanets w) = (filter P loaded ++ appended)%list.

(** The part of [all] that was there when the predicate last in force was
    applied, and the planets appended since, along a trace: a handler
    applies its predicate to the whole of [all]; a response for page 1
    replaces everything by the fetched page, taken as it is; a response for
    a later page adds the fetched page to what was appended. *)
Definition sinceAppliedBy (ev : Event) (w : World)
    (current : list Exoplanet * list Exoplanet)
  : list Exoplanet * list Exoplanet :=
  match ev with
  | RunSearchExoplanets | RunApplyFilters | RunResetFilters =>
      (items (allExoplanets w), [])
  | Settle i (Resolved data) =>
      match nth_error (inFlight w) i with
      | Some page =>
          if (page =? 1)%Z then ([], exoplanets data)
          else (fst current, (snd current ++ exoplanets data)%list)
      | None => current
      end
  | _ => current
  end.

Fixpoint sinceApplied (trace : list Event) (w : World)
    (current : list Exoplanet * list Exoplanet)
  : list Exoplanet * list Exoplanet :=
  match trace with
  | [] => current
  | ev :: trace' =>
      sinceApplied trace' (step ev w) (sinceAppliedBy ev w current)
  end.

(** [all] is the two parts one after the other, and [filtered] is what the
    predicate selects from the first part followed by the whole of the
    second. *)
Definition FilteredIs (P : Exoplanet -> bool)
    (parts : list Exoplanet * list Exoplanet) (w : World) : Prop :=
  items (allExoplanets w) = (fst parts ++ snd parts)%list /\
  items (filteredExoplanets w) = (filter P (fst parts) ++ snd parts)%list.

(** The three globals of the store are what they were. *)
Definition StoreUnchanged (before after : World) : Prop :=
  allExoplanets after = allExoplanets before /\
  filteredExoplanets after = filteredExoplanets before /\
  currentPage after = currentPage before.

(** After a load the three globals of the store are what they were
    before it. *)
Definition StoreKept (before : World) (after : PageAfterLoad) : Prop :=
  match after with
  | ArraysIntact w => StoreUnchanged before w
  | ArraysUndefined _ => False
  end.

(** What the grid shows after a load. *)
Definition gridAfter (p : PageAfterLoad) : list GridNode :=
  match p with
  | ArraysIntact w => exoplanetGrid w
  | ArraysUndefined u => Bare.exoplanetGrid u
  end.

(** Pages are numbered from 1: in the store and in every request under
    way. *)
Definition PagesPositive (w : World) : Prop :=
  (1 <= currentPage w)%Z /\ Forall (fun page => (1 <= page)%Z) (inFlight w).

(** [n / 10^f] is [x] rounded to [f] decimal places: [n] is the integer
    nearest to [x * 10^f], and the larger of the two nearest ones when
    [x * 10^f] lies half-way between them. *)
Definition RoundedTo (f : nat) (n : Z) (x : Q) : Prop :=
  forall k : Z,
    let scaled := (x * inject_Z (10 ^ Z.of_nat f))%Q in
    (Qabs (inject_Z n - scaled) <= Qabs (inject_Z k - scaled))%Q /\
    ((Qabs (inject_Z n - scaled) == Qabs (inject_Z k - scaled))%Q ->
     (k <= n)%Z).

(** The number a finite float stands for, [(-1)^s * m * 2^e], read off its
    sign, mantissa and exponent. *)
Definition ExactValue (x : float) (q : Q) : Prop :=
  match Prim2SF x with
  | S754_zero _ => (q == 0)%Q
  | S754_finite s m e =>
      (q == (if s then -1 else 1) * inject_Z (Z.pos m) * (2 # 1) ^ e)%Q
  | _ => False
  end.

(** The value of a decimal digit. *)
Definition digitValue (c : ascii) : option Z :=
  let n := nat_of_ascii c in
  if (Nat.leb 48 n && Nat.leb n 57)%bool then Some (Z.of_nat (n - 48))
  else None.

(** The number that a run of decimal digits writes, read from the left
    after the digits of [acc]; [None] when a character is not a digit. *)
Fixpoint readDigits (acc : Z) (s : string) : option Z :=
  match s with
  | EmptyString => Some acc
  | String c s' =>
      match digitValue c with
      | Some d => readDigits (10 * acc + d) s'
      | None => None
      end
  end.

(** [s] is the decimal numeral of [v / 10^f] with [f] digits after the
    point: an integer part without leading zero (a lone 0 when there is
    nothing else), a point, and exactly [f] digits; with the point taken
    out the digits write [v]. *)
Definition WritesFixed (f : nat) (v : Z) (s : string) : Prop :=
  exists whole fraction : string,
    s = whole ++ "." ++ fraction /\
    String.length fraction = f /\
    (whole = "0" \/
     exists (c : ascii) (rest : string),
       whole = String c rest /\ c <> "0"%char) /\
    readDigits 0 (whole ++ fraction) = Some v.

(** A planet record with a name, possibly a radius, and nothing else. *)
Definition planetWith (n : string) (radius : option float) : Exoplanet :=
  mkExoplanet n None None None None radius None None None None.

(** The planets of the specification's search example, and one more for a
    second page. *)
Definition kepler1b : Exoplanet := planetWith "Kepler-1b" None.
Definition trappist1e : Exoplanet := planetWith "TRAPPIST-1e" None.
Definition trappist1f : Exoplanet := planetWith "TRAPPIST-1f" None.

(** The page after its first load returned the two planets. *)
Definition twoPlanetsLoaded : World :=
  run [CallLoadExoplanets;
       Settle 0 (Resolved (mkPageData [kepler1b; trappist1e] true))]
    initialWorld.

(* ------------------------------------------------------------------ *)
(** ** The detail modal *)

(** The rows [showPlanetDetails] writes into [#modalBody]. *)
Record DetailView := mkDetailView {
  modal_planet_name : string;
  modal_planet_host : string;
  modal_discovery_method : string;
  modal_discovery_year : string;
  modal_planet_radius : string;
  modal_planet_mass : string;
  modal_orbital_period : string;
  modal_distance : string;
  modal_star_temperature : string;
  modal_star_radius : string
}.

(** [#planetModal]: whether its class list holds [active], and the body last
    written ([None] until a card is clicked). *)
Record Modal := mkModal {
  modalActive : bool;
  modalBody : option DetailView
}.

Section Details.

Variable NumberToString : float -> string.

(** [field ? field.toFixed(2) + unit : 'Unknown'] *)
Definition fixedOrUnknown (field : option float) (unit : string) : string :=
  match field with
  | Some x =>
      if JsNumber.toBoolean x
      then JsNumber.toFixed NumberToString 2 x ++ unit
      else "Unknown"
  | None => "Unknown"
  end.

(** [showPlanetDetails(planet)] *)
Definition showPlanetDetails (planet : Exoplanet) (m : Modal) : Modal :=
  mkModal true
    (Some
       (mkDetailView
          (name planet)
          ("Orbits " ++ orDefault (hostname planet) "Unknown Star")
          (orDefault (discoverymethod planet) "Unknown")
          (match disc_year planet with
           | Some y =>
               if JsNumber.toBoolean y then NumberToString y else "Unknown"
           | None => "Unknown"
           end)
          (fixedOrUnknown (pl_rade planet) " R⊕")
          (fixedOrUnknown (pl_bmasse planet) " M⊕")
          (fixedOrUnknown (pl_orbper planet) " days")
          (fixedOrUnknown (sy_dist planet) " ly")
          (match st_teff planet with
           | Some t =>
               if JsNumber.toBoolean t then NumberToString t ++ " K"
               else "Unknown"
           | None => "Unknown"
           end)
          (fixedOrUnknown (st_rad planet) " R☉"))).

End Details.

(** [closeModal()] *)
Definition closeModal (m : Modal) : Modal :=
  mkModal false (modalBody m).

(** [window.onclick]: only a click whose target is the modal itself (its
    backdrop) closes it. *)
Definition windowOnclick (targetIsModal : bool) (m : Modal) : Modal :=
  if targetIsModal then closeModal m else m.

(* ------------------------------------------------------------------ *)
(** ** The animated counters *)

(** A counter element: its text, whether its interval timer is still set,
    and [let current] of the closure. *)
Record Counter := mkCounter {
  counterText : string;
  timerSet : bool;
  counterCurrent : float
}.

Section Counters.

(** [Number.prototype.toLocaleString] depends on the locale of the browser
    and [Math.floor] is a built-in: both are left to the engine. *)
Variable toLocaleString : float -> string.
Variable mathFloor : float -> float.

(** [const increment] of [animateCounter] *)
Definition counterIncrement (targetValue : float) : float :=
  (targetValue / (2000 / 16))%float.

(** [animateCounter(elementId, targetValue)] up to [setInterval]: the text
    of the element is not touched before the first tick. *)
Definition animateCounter (targetValue : float) (text : string) : Counter :=
  mkCounter text true 0%float.

(** One run of the interval callback of [animateCounter]; a cleared timer
    runs no callback. *)
Definition counterTick (targetValue : float) (c : Counter) : Counter :=
  if timerSet c then
    let current := (counterCurrent c + counterIncrement targetValue)%float in
    if JsNumber.ge current targetValue then
      mkCounter (toLocaleString targetValue) false current
    else
      mkCounter (toLocaleString (mathFloor current)) true current
  else c.

Fixpoint counterTicks (n : nat) (targetValue : float) (c : Counter)
  : Counter :=
  match n with
  | O => c
  | S n' => counterTicks n' targetValue (counterTick targetValue c)
  end.

End Counters.

(* ------------------------------------------------------------------ *)
(** ** Further vocabulary *)

(** What [displayExoplanets] leaves in the grid for a list of planets: the
    placeholder for an empty list, otherwise one card per planet, in order. *)
Definition renderGrid (xs : list Exoplanet) : list GridNode :=
  match xs with
  | [] => [NoResultsMessage]
  | _ :: _ => map createPlanetCard xs
  end.

(** The grid shows the filtered view. *)
Definition GridShowsFiltered (w : World) : Prop :=
  exoplanetGrid w = renderGrid (items (filteredExoplanets w)).

(** Two clicks on "load more" before either response arrives, then the two
    responses. *)
Definition doubleClick (first second : PageData) : list Event :=
  [CallLoadMoreExoplanets; CallLoadMoreExoplanets;
   Settle 0 (Resolved first); Settle 0 (Resolved second)].

(** A row shows [x] rounded to two decimals: its sign, the decimal numeral
    with two digits after the point of the magnitude rounded to the nearest
    hundredth (the larger one on a tie), and the unit. *)
Definition ShowsRounded (x : float) (unit row : string) : Prop :=
  exists (size : Q) (n : Z) (digits : string),
    ExactValue (PrimFloat.abs x) size /\
    RoundedTo 2 n size /\
    WritesFixed 2 n digits /\
    row = (if PrimFloat.ltb x 0 then "-" else "") ++ digits ++ unit.

(** The planet-type badges in the order of their radius ranges. *)
Definition badgeRank (badge : string) : nat :=
  if String.eqb badge "Earth-like" then 0
  else if String.eqb badge "Super-Earth" then 1
  else if String.eqb badge "Neptune-like" then 2
  else 3.

(* ------------------------------------------------------------------ *)
(** * Properties *)

(** ** The order of binary64 numbers *)

Lemma SFleb_SFltb_trans (x y z : spec_float) :
  SFleb x y = true -> SFltb y z = true -> SFltb x z = true.
Proof.
  unfold SFleb, SFltb.
  destruct x as [[|]|[|]| |[|] mx ex], y as [[|]|[|]| |[|] my ey],
           z as [[|]|[|]| |[|] mz ez];
    simpl; try congruence; change (Pos.compare_cont Eq) with Pos.compare;
    repeat match goal with
    | |- context [(?a ?= ?b)%Z] => destruct (Z.compare_spec a b); simpl
    | |- context [(?a ?= ?b)%positive] =>
        destruct (Pos.compare_spec a b); simpl
    end; try congruence; try lia.
Qed.

Lemma leb_ltb_trans (x y z : float) :
  PrimFloat.leb x y = true -> PrimFloat.ltb y z = true ->
  PrimFloat.ltb x z = true.
Proof.
  rewrite !FloatAxioms.ltb_spec, FloatAxioms.leb_spec.
  apply SFleb_SFltb_trans.
Qed.

Lemma SFeqb_refl (x : spec_float) : x <> S754_nan -> SFeqb x x = true.
Proof.
  unfold SFeqb. destruct x as [ [|] | [|] | | [|] m e ]; simpl;
    try reflexivity; try congruence;
    rewrite Z.compare_refl;
    change (Pos.compare_cont Eq m m) with (m ?= m)%positive;
    rewrite Pos.compare_refl; reflexivity.
Qed.

Lemma is_nan_Prim2SF (x : float) :
  PrimFloat.is_nan x = true -> Prim2SF x = S754_nan.
Proof.
  unfold PrimFloat.is_nan. rewrite FloatAxioms.eqb_spec. intros N.
  destruct (Prim2SF x) as [ s | s | | s m e ] eqn:E; [ | | reflexivity | ];
    rewrite SFeqb_refl in N by discriminate; discriminate N.
Qed.

(** NaN compares false with everything. *)
Lemma nan_unordered (x y : float) :
  PrimFloat.is_nan x = true ->
  PrimFloat.ltb x y = false /\ PrimFloat.leb y x = false.
Proof.
  intros N. apply is_nan_Prim2SF in N.
  rewrite FloatAxioms.ltb_spec, FloatAxioms.leb_spec, N.
  split; [ reflexivity | ].
  destruct (Prim2SF y) as [ s | s | | s m e ]; reflexivity.
Qed.

(** [lo <= x] rules out [x < hi] for every constant [hi <= lo]. *)
Ltac below_excluded Hle :=
  match goal with
  | |- PrimFloat.ltb ?x ?hi = false =>
      let K := fresh "K" in
      let A := fresh "A" in
      destruct (PrimFloat.ltb x hi) eqn:K; [ | reflexivity ];
      pose proof (leb_ltb_trans _ _ _ Hle K) as A; vm_compute in A;
      discriminate A
  end.

(** ** The planet-type badge *)

Section Badge.

Variable planet : Exoplanet.
Variable radius : float.
Hypothesis Hradius : pl_rade planet = Some radius.

Lemma getPlanetType_falsy :
  JsNumber.toBoolean radius = false -> getPlanetType planet = "Unknown Type".
Proof.
  intros F. unfold getPlanetType, truthyNumber. rewrite Hradius, F.
  reflexivity.
Qed.

Hypothesis Htruthy : JsNumber.toBoolean radius = true.

Lemma getPlanetType_truthy :
  getPlanetType planet =
  if PrimFloat.ltb radius 1.25 then "Earth-like"
  else if PrimFloat.ltb radius 2 then "Super-Earth"
  else if PrimFloat.ltb radius 6 then "Neptune-like"
  else "Jupiter-like".
Proof.
  unfold getPlanetType, truthyNumber, JsNumber.lt.
  rewrite Hradius, Htruthy. reflexivity.
Qed.

Lemma getPlanetType_earth :
  JsNumber.lt radius 1.25 = true -> getPlanetType planet = "Earth-like".
Proof.
  unfold JsNumber.lt. intros L. rewrite getPlanetType_truthy, L.
  reflexivity.
Qed.

Lemma getPlanetType_super :
  JsNumber.le 1.25 radius = true -> JsNumber.lt radius 2 = true ->
  getPlanetType planet = "Super-Earth".
Proof.
  unfold JsNumber.lt, JsNumber.le. intros G L.
  rewrite getPlanetType_truthy, L.
  replace (PrimFloat.ltb radius 1.25) with false; [ reflexivity | ].
  symmetry. below_excluded G.
Qed.

Lemma getPlanetType_neptune :
  JsNumber.le 2 radius = true -> JsNumber.lt radius 6 = true ->
  getPlanetType planet = "Neptune-like".
Proof.
  unfold JsNumber.lt, JsNumber.le. intros G L.
  rewrite getPlanetType_truthy, L.
  replace (PrimFloat.ltb radius 1.25) with false
    by (symmetry; below_excluded G).
  replace (PrimFloat.ltb radius 2) with false
    by (symmetry; below_excluded G).
  reflexivity.
Qed.

Lemma getPlanetType_jupiter :
  JsNumber.ge radius 6 = true -> getPlanetType planet = "Jupiter-like".
Proof.
  unfold JsNumber.ge. intros G. rewrite getPlanetType_truthy.
  replace (PrimFloat.ltb radius 1.25) with false
    by (symmetry; below_excluded G).
  replace (PrimFloat.ltb radius 2) with false
    by (symmetry; below_excluded G).
  replace (PrimFloat.ltb radius 6) with false
    by (symmetry; below_excluded G).
  reflexivity.
Qed.

End Badge.

Lemma getPlanetType_absent (planet : Exoplanet) :
  pl_rade planet = None -> getPlanetType planet = "Unknown Type".
Proof. intros E. unfold getPlanetType. rewrite E. reflexivity. Qed.

(** C2, as the claim words it, is refuted by a planet of radius 0: zero is
    below 1.25 and yet the badge is not "Earth-like". *)
Lemma getPlanetType_zero_radius_not_earth_like :
  ~ (forall (planet : Exoplanet) (radius : float),
       pl_rade planet = Some radius ->
       JsNumber.lt radius 1.25 = true ->
       getPlanetType planet = "Earth-like").
Proof.
  intros claim.
  specialize (claim (planetWith "b" (Some 0%float)) 0%float
                eq_refl eq_refl).
  vm_compute in claim. discriminate claim.
Qed.

(** C2, amended: for a planet whose [pl_rade] is not zero, the badge is
    "Earth-like" below 1.25, "Super-Earth" from 1.25 up to but excluding
    2.0, "Neptune-like" from 2.0 up to but excluding 6.0 and "Jupiter-like"
    from 6.0 on; a planet without [pl_rade], or with a [pl_rade] that is
    falsy (zero, or NaN), gets "Unknown Type".  The boundaries are
    lower-inclusive: 1.25 is a Super-Earth, 2.0 Neptune-like and 6.0
    Jupiter-like. *)
Theorem getPlanetType_classification (planet : Exoplanet) :
  (pl_rade planet = None -> getPlanetType planet = "Unknown Type") /\
  (forall radius : float,
     pl_rade planet = Some radius ->
     (JsNumber.toBoolean radius = false ->
      getPlanetType planet = "Unknown Type") /\
     (PrimFloat.is_zero radius = false ->
      (JsNumber.lt radius 1.25 = true ->
       getPlanetType planet = "Earth-like") /\
      (JsNumber.le 1.25 radius = true -> JsNumber.lt radius 2 = true ->
       getPlanetType planet = "Super-Earth") /\
      (JsNumber.le 2 radius = true -> JsNumber.lt radius 6 = true ->
       getPlanetType planet = "Neptune-like") /\
      (JsNumber.ge radius 6 = true ->
       getPlanetType planet = "Jupiter-like"))) /\
  (pl_rade planet = Some 1%float -> getPlanetType planet = "Earth-like") /\
  (pl_rade planet = Some 1.25%float -> getPlanetType planet = "Super-Earth") /\
  (pl_rade planet = Some 1.9999%float ->
   getPlanetType planet = "Super-Earth") /\
  (pl_rade planet = Some 2%float -> getPlanetType planet = "Neptune-like") /\
  (pl_rade planet = Some 5.9999%float ->
   getPlanetType planet = "Neptune-like") /\
  (pl_rade planet = Some 6%float -> getPlanetType planet = "Jupiter-like").
Proof.
  split; [ apply getPlanetType_absent | ].
  split.
  - intros radius E. split.
    + apply getPlanetType_falsy; exact E.
    + intros Z. unfold JsNumber.lt, JsNumber.le, JsNumber.ge.
      destruct (PrimFloat.is_nan radius) eqn:N.
      * repeat split; intros;
          repeat match goal with
          | H : PrimFloat.ltb radius ?y = true |- _ =>
              rewrite (proj1 (nan_unordered radius y N)) in H; discriminate H
          | H : PrimFloat.leb ?y radius = true |- _ =>
              rewrite (proj2 (nan_unordered radius y N)) in H; discriminate H
          end.
      * assert (T : JsNumber.toBoolean radius = true)
          by (unfold JsNumber.toBoolean; rewrite Z, N; reflexivity).
        repeat split.
        -- apply getPlanetType_earth; assumption.
        -- apply getPlanetType_super; assumption.
        -- apply getPlanetType_neptune; assumption.
        -- apply getPlanetType_jupiter; assumption.
  - repeat split; intros E; unfold getPlanetType; rewrite E; reflexivity.
Qed.

(** C2 at a boundary radius, at a radius above every boundary and at a
    planet without radius. *)
Lemma getPlanetType_classification_witness :
  getPlanetType (planetWith "b" (Some 1.25%float)) = "Super-Earth" /\
  getPlanetType (planetWith "c" (Some 7.5%float)) = "Jupiter-like" /\
  getPlanetType (planetWith "d" None) = "Unknown Type".
Proof.
  split; [ | split ].
  - destruct (getPlanetType_classification
                (planetWith "b" (Some 1.25%float)))
      as (_ & _ & _ & boundary & _).
    apply boundary. reflexivity.
  - destruct (getPlanetType_classification
                (planetWith "c" (Some 7.5%float)))
      as (_ & ranges & _).
    destruct (ranges 7.5%float eq_refl) as (_ & truthy).
    destruct (truthy eq_refl) as (_ & _ & _ & jupiter).
    apply jupiter. reflexivity.
  - destruct (getPlanetType_classification (planetWith "d" None))
      as (absent & _).
    apply absent. reflexivity.
Defined.

(** C10: a planet whose [pl_rade] is exactly 0 is handled as one without a
    radius.  Its badge is "Unknown Type" although 0 is below 1.25, and the
    habitability test lets it through whatever the selection is, although 0
    is below 0.5 and would be "hot": the filter then keeps or drops it on
    the method test alone. *)
Theorem zero_radius_counts_as_missing (planet : Exoplanet) :
  pl_rade planet = Some 0%float ->
  getPlanetType planet = "Unknown Type" /\
  JsNumber.lt 0 1.25 = true /\
  (forall habitableFilter : string,
     matchesHabitable habitableFilter planet = true) /\
  matchesHabitable "habitable" planet = true /\
  matchesHabitable "hot" planet = true /\
  matchesHabitable "cold" planet = true /\
  JsNumber.lt 0 0.5 = true /\
  (forall methodFilter habitableFilter : string,
     filterCallback methodFilter habitableFilter planet =
     matchesMethod methodFilter planet).
Proof.
  intros E.
  assert (pass : forall habitableFilter : string,
             matchesHabitable habitableFilter planet = true).
  { intros hf. unfold matchesHabitable. rewrite E.
    replace (JsNumber.toBoolean 0) with false by reflexivity.
    rewrite andb_false_r. reflexivity. }
  split. { apply (getPlanetType_falsy planet 0%float E). reflexivity. }
  split. { reflexivity. }
  split. { exact pass. }
  repeat (split; [ apply pass || reflexivity | ]).
  intros mf hf. unfold filterCallback. rewrite pass. apply andb_true_r.
Qed.

(** C10 at a planet whose only fields are a name and a radius of 0. *)
Lemma zero_radius_counts_as_missing_witness :
  getPlanetType (planetWith "z" (Some 0%float)) = "Unknown Type" /\
  matchesHabitable "hot" (planetWith "z" (Some 0%float)) = true.
Proof.
  destruct (zero_radius_counts_as_missing
              (planetWith "z" (Some 0%float)) eq_refl)
    as (badge & _ & _ & _ & hot & _).
  split; [ exact badge | exact hot ].
Defined.

(** ** Strings *)

Lemma prefix_spec (t s : string) :
  String.prefix t s = true <-> exists post, s = t ++ post.
Proof.
  revert s. induction t as [ | a t IH ]; intros s.
  - split; [ intros _; exists s; reflexivity | ].
    intros _. destruct s; reflexivity.
  - destruct s as [ | b s ]; simpl.
    + split; [ discriminate | intros [post E]; discriminate E ].
    + destruct (ascii_dec a b) as [ -> | N ].
      * rewrite IH. split; intros [post E]; exists post.
        -- rewrite E. reflexivity.
        -- injection E as E. exact E.
      * split; [ discriminate | ].
        intros [post E]. injection E as E1 E2. congruence.
Qed.

Lemma includes_spec (s t : string) :
  JsString.includes s t = true <-> Contains s t.
Proof.
  unfold Contains. split.
  - induction s as [ | c s IH ]; cbn [JsString.includes]; intros H.
    + rewrite orb_false_r in H. apply prefix_spec in H as [post E].
      exists "", post. exact E.
    + apply orb_true_iff in H as [H | H].
      * apply prefix_spec in H as [post E]. exists "", post. exact E.
      * destruct (IH H) as (pre & post & E).
        exists (String c pre), post. rewrite E. reflexivity.
  - intros (pre & post & E). revert s E.
    induction pre as [ | c pre IH ]; intros s E.
    + assert (P : String.prefix t s = true)
        by (apply prefix_spec; exists post; exact E).
      destruct s; cbn [JsString.includes]; rewrite P; reflexivity.
    + rewrite E. cbn [JsString.includes append].
      rewrite (IH _ eq_refl). apply orb_true_r.
Qed.

Lemma includes_empty (s : string) : JsString.includes s "" = true.
Proof. apply includes_spec. exists "", s. reflexivity. Qed.

Lemma toBoolean_false_iff (s : string) :
  JsString.toBoolean s = false <-> s = "".
Proof. destruct s; simpl; split; congruence. Qed.

(** ** The category filters *)

Lemma matchesMethod_spec (methodFilter : string) (planet : Exoplanet) :
  matchesMethod methodFilter planet = true <->
  MethodPasses methodFilter planet.
Proof.
  unfold matchesMethod, MethodPasses.
  destruct (discoverymethod planet) as [ dm | ]; [ | tauto ].
  destruct (JsString.toBoolean methodFilter) eqn:Tf; simpl.
  - destruct (JsString.toBoolean dm) eqn:Td.
    + rewrite includes_spec. split; [ tauto | ].
      intros [ -> | [ -> | C ] ]; [ discriminate Tf | discriminate Td | exact C ].
    + apply toBoolean_false_iff in Td. tauto.
  - apply toBoolean_false_iff in Tf. tauto.
Qed.

Lemma matchesHabitable_spec (habitableFilter : string) (planet : Exoplanet) :
  matchesHabitable habitableFilter planet = true <->
  HabitablePasses habitableFilter planet.
Proof.
  unfold matchesHabitable, HabitablePasses, InHabitabilityRange.
  unfold JsNumber.ge, JsNumber.gt, JsNumber.le, JsNumber.lt.
  destruct (pl_rade planet) as [ radius | ]; [ | tauto ].
  destruct (JsNumber.toBoolean radius); simpl;
    [ | rewrite andb_false_r; split; [ discriminate | reflexivity ] ].
  destruct (JsString.toBoolean habitableFilter) eqn:Tf; simpl.
  - destruct (String.eqb_spec habitableFilter "habitable") as [ -> | N1 ].
    { rewrite andb_true_iff. split.
      - intros H _. repeat split; try discriminate. all: tauto.
      - intros H. apply H; reflexivity. }
    destruct (String.eqb_spec habitableFilter "hot") as [ -> | N2 ].
    { split.
      - intros H _. repeat split; try discriminate. tauto.
      - intros H. apply H; reflexivity. }
    destruct (String.eqb_spec habitableFilter "cold") as [ -> | N3 ].
    { split.
      - intros H _. repeat split; try discriminate. tauto.
      - intros H. apply H; reflexivity. }
    split; [ | reflexivity ]. intros _ _. repeat split; congruence.
  - apply toBoolean_false_iff in Tf. subst habitableFilter.
    split; [ | reflexivity ]. intros _ _. repeat split; discriminate.
Qed.

Lemma filterCallback_spec (methodFilter habitableFilter : string)
    (planet : Exoplanet) :
  filterCallback methodFilter habitableFilter planet = true <->
  MethodPasses methodFilter planet /\ HabitablePasses habitableFilter planet.
Proof.
  unfold filterCallback.
  rewrite andb_true_iff, matchesMethod_spec, matchesHabitable_spec. tauto.
Qed.

(** ** Lists *)

Lemma filter_everything {A : Type} (f : A -> bool) (l : list A) :
  (forall x, f x = true) -> filter f l = l.
Proof.
  intros T. induction l as [ | x l IH ]; simpl; [ reflexivity | ].
  rewrite T, IH. reflexivity.
Qed.

Lemma Subsequence_refl {A : Type} (l : list A) : Subsequence l l.
Proof. induction l; constructor; assumption. Qed.

Lemma Subsequence_filter {A : Type} (f : A -> bool) (l : list A) :
  Subsequence (filter f l) l.
Proof.
  induction l as [ | x l IH ]; simpl; [ constructor | ].
  destruct (f x); constructor; exact IH.
Qed.

Lemma Subsequence_app {A : Type} (k1 k2 l1 l2 : list A) :
  Subsequence k1 l1 -> Subsequence k2 l2 ->
  Subsequence (k1 ++ k2) (l1 ++ l2).
Proof.
  intros S1 S2. induction S1; simpl; try constructor; assumption.
Qed.

(** ** What each operation does to the store *)

Ltac open_operations :=
  unfold searchExoplanets, applyFilters, resetFilters, loadMoreExoplanets,
    loadExoplanets, loadExoplanets_settle, loadExoplanets_request,
    displayExoplanets, appendExoplanets.

(** Assignments and field reads on an explicit [mkWorld], innermost first. *)
Ltac read_fields :=
  cbv beta iota zeta delta
    [newArray set_currentPage set_allExoplanets set_filteredExoplanets
     set_searchInput set_discoveryMethodFilter set_habitableFilter
     set_exoplanetGrid set_loadMoreBtn set_inFlight
     currentPage allExoplanets filteredExoplanets searchInput
     discoveryMethodFilter habitableFilter exoplanetGrid loadMoreBtn
     nextRef inFlight];
  cbn [items ref].

Ltac by_cases_of_operation :=
  repeat match goal with
  | w : World |- _ => destruct w
  end;
  open_operations; read_fields;
  repeat match goal with
  | |- context [if ?b then _ else _] => destruct b eqn:?; read_fields
  end.

Lemma applyFilters_store (w : World) :
  items (filteredExoplanets (applyFilters w)) =
    filter (filterCallback (discoveryMethodFilter w) (habitableFilter w))
      (items (allExoplanets w)) /\
  allExoplanets (applyFilters w) = allExoplanets w /\
  currentPage (applyFilters w) = currentPage w.
Proof. by_cases_of_operation; repeat split. Qed.

Lemma toLowerCase_empty (s : string) :
  JsString.toLowerCase s = "" <-> s = "".
Proof. destruct s; simpl; split; congruence. Qed.

Lemma searchCallback_empty (planet : Exoplanet) :
  searchCallback "" planet = true.
Proof. unfold searchCallback. rewrite includes_empty. reflexivity. Qed.

Lemma searchExoplanets_store (w : World) :
  items (filteredExoplanets (searchExoplanets w)) =
    filter (searchCallback (JsString.toLowerCase (searchInput w)))
      (items (allExoplanets w)) /\
  allExoplanets (searchExoplanets w) = allExoplanets w /\
  currentPage (searchExoplanets w) = currentPage w.
Proof.
  unfold searchExoplanets.
  destruct (String.eqb_spec (JsString.toLowerCase (searchInput w)) "")
    as [ E | N ].
  - rewrite E, (filter_everything _ _ searchCallback_empty).
    by_cases_of_operation; repeat split.
  - by_cases_of_operation; repeat split.
Qed.

Lemma resetFilters_store (w : World) :
  filteredExoplanets (resetFilters w) = allExoplanets w /\
  allExoplanets (resetFilters w) = allExoplanets w /\
  currentPage (resetFilters w) = currentPage w /\
  searchInput (resetFilters w) = "" /\
  discoveryMethodFilter (resetFilters w) = "" /\
  habitableFilter (resetFilters w) = "".
Proof. by_cases_of_operation; repeat split. Qed.

Lemma settle_rejected_store (page : Z) (r : FetchResult) (w : World) :
  r = FetchRejected \/ r = JsonRejected ->
  allExoplanets (loadExoplanets_settle page r w) = allExoplanets w /\
  filteredExoplanets (loadExoplanets_settle page r w) = filteredExoplanets w /\
  currentPage (loadExoplanets_settle page r w) = currentPage w.
Proof. intros [ -> | -> ]; repeat split. Qed.

Lemma request_store (page : Z) (w : World) :
  allExoplanets (loadExoplanets_request page w) = allExoplanets w /\
  filteredExoplanets (loadExoplanets_request page w) = filteredExoplanets w /\
  currentPage (loadExoplanets_request page w) = currentPage w /\
  searchInput (loadExoplanets_request page w) = searchInput w /\
  discoveryMethodFilter (loadExoplanets_request page w) =
    discoveryMethodFilter w /\
  habitableFilter (loadExoplanets_request page w) = habitableFilter w /\
  inFlight (loadExoplanets_request page w) = inFlight w.
Proof. by_cases_of_operation; repeat split. Qed.

Lemma settle_first_page_store (data : PageData) (w : World) :
  items (allExoplanets (loadExoplanets_settle 1 (Resolved data) w)) =
    exoplanets data /\
  filteredExoplanets (loadExoplanets_settle 1 (Resolved data) w) =
    allExoplanets (loadExoplanets_settle 1 (Resolved data) w) /\
  currentPage (loadExoplanets_settle 1 (Resolved data) w) = 1%Z.
Proof.
  unfold loadExoplanets_settle. rewrite Z.eqb_refl.
  by_cases_of_operation; repeat split.
Qed.

Lemma settle_later_page_store (page : Z) (data : PageData) (w : World) :
  page <> 1%Z ->
  items (allExoplanets (loadExoplanets_settle page (Resolved data) w)) =
    (items (allExoplanets w) ++ exoplanets data)%list /\
  items (filteredExoplanets (loadExoplanets_settle page (Resolved data) w)) =
    (items (filteredExoplanets w) ++ exoplanets data)%list /\
  currentPage (loadExoplanets_settle page (Resolved data) w) = page.
Proof.
  intros N. apply Z.eqb_neq in N.
  unfold loadExoplanets_settle. rewrite N.
  by_cases_of_operation; repeat split.
Qed.

(** C3, as the claim words it, is refuted by a planet of radius 0 under the
    "habitable" selection: the planet has a [pl_rade], 0 is outside
    [0.5, 1.5], and [applyFilters] keeps it. *)
Lemma applyFilters_keeps_zero_radius_as_habitable :
  ~ (forall (w : World) (planet : Exoplanet),
       In planet (items (filteredExoplanets (applyFilters w))) <->
       In planet (items (allExoplanets w)) /\
       MethodPasses_literal (discoveryMethodFilter w) planet /\
       HabitablePasses_literal (habitableFilter w) planet).
Proof.
  intros claim.
  pose (p := planetWith "z" (Some 0%float)).
  pose (w := run [CallLoadExoplanets;
                  Settle 0 (Resolved (mkPageData [p] false));
                  EditHabitableFilter "habitable"] initialWorld).
  destruct (claim w p) as [kept _].
  assert (K : In p (items (filteredExoplanets (applyFilters w))))
    by (vm_compute; left; reflexivity).
  destruct (kept K) as (_ & _ & range).
  unfold HabitablePasses_literal in range.
  change (pl_rade p) with (Some 0%float) in range.
  change (habitableFilter w) with "habitable" in range.
  destruct range as [habitable _].
  destruct (habitable eq_refl) as [lower _].
  vm_compute in lower. discriminate lower.
Qed.

(** C3, amended: [applyFilters] keeps, in their order, exactly the planets
    of [all] that pass both tests.  The method test passes when no method is
    selected, when the planet's [discoverymethod] is missing or empty, and
    otherwise when it contains the selected value case-sensitively.  The
    habitability test is evaluated only for a planet whose [pl_rade] is a
    number other than zero and NaN, and passes otherwise; when evaluated,
    "habitable" selects 0.5 <= radius <= 1.5, "hot" radius < 0.5 and "cold"
    radius > 1.5.  So 0.5 and 1.5 pass "habitable", 0.4999 is "hot" and not
    "habitable", and 1.5001 is "cold". *)
Theorem applyFilters_keeps_exactly_the_passing (w : World) :
  items (filteredExoplanets (applyFilters w)) =
    filter (filterCallback (discoveryMethodFilter w) (habitableFilter w))
      (items (allExoplanets w)) /\
  (forall planet : Exoplanet,
     filterCallback (discoveryMethodFilter w) (habitableFilter w) planet
       = true <->
     MethodPasses (discoveryMethodFilter w) planet /\
     HabitablePasses (habitableFilter w) planet) /\
  (forall planet : Exoplanet,
     In planet (items (filteredExoplanets (applyFilters w))) <->
     In planet (items (allExoplanets w)) /\
     MethodPasses (discoveryMethodFilter w) planet /\
     HabitablePasses (habitableFilter w) planet) /\
  matchesHabitable "habitable" (planetWith "p" (Some 0.5%float)) = true /\
  matchesHabitable "habitable" (planetWith "p" (Some 1.5%float)) = true /\
  matchesHabitable "habitable" (planetWith "p" (Some 0.4999%float))
    = false /\
  matchesHabitable "hot" (planetWith "p" (Some 0.4999%float)) = true /\
  matchesHabitable "habitable" (planetWith "p" (Some 1.5001%float))
    = false /\
  matchesHabitable "cold" (planetWith "p" (Some 1.5001%float)) = true.
Proof.
  destruct (applyFilters_store w) as (selected & _).
  split; [ exact selected | ].
  split; [ intros planet; apply filterCallback_spec | ].
  split; [ | repeat split ].
  intros planet. rewrite selected, filter_In, filterCallback_spec. tauto.
Qed.

(** ** Search *)

Lemma toLowerCase_app (a b : string) :
  JsString.toLowerCase (a ++ b) =
  JsString.toLowerCase a ++ JsString.toLowerCase b.
Proof. induction a as [ | c a IH ]; simpl; [ | rewrite IH ]; reflexivity. Qed.

Lemma toLowerCase_split (s a b : string) :
  JsString.toLowerCase s = a ++ b ->
  exists sa sb,
    s = sa ++ sb /\ JsString.toLowerCase sa = a /\
    JsString.toLowerCase sb = b.
Proof.
  revert s. induction a as [ | c a IH ]; intros s E.
  - exists "", s. repeat split. exact E.
  - destruct s as [ | d s ]; [ discriminate E | ].
    simpl in E. injection E as Ec Es.
    destruct (IH s Es) as (sa & sb & -> & La & Lb).
    exists (String d sa), sb. simpl. rewrite La, Ec. repeat split.
    exact Lb.
Qed.

Lemma toLowerUnit_SameLetter (c d : ascii) :
  JsString.toLowerUnit c = JsString.toLowerUnit d <-> SameLetter c d.
Proof.
  unfold JsString.toLowerUnit, SameLetter.
  pose proof (nat_ascii_bounded c) as Bc.
  pose proof (nat_ascii_bounded d) as Bd.
  assert (inj : forall a b : nat,
            (a < 256)%nat -> (b < 256)%nat ->
            ascii_of_nat a = ascii_of_nat b -> a = b).
  { intros a b A B E. apply (f_equal nat_of_ascii) in E.
    rewrite !nat_ascii_embedding in E by assumption. exact E. }
  assert (same : nat_of_ascii c = nat_of_ascii d -> c = d).
  { intros E. rewrite <- (ascii_nat_embedding c), <- (ascii_nat_embedding d).
    f_equal. exact E. }
  assert (onC : forall k, ascii_of_nat k = c -> (k < 256)%nat ->
                  nat_of_ascii c = k).
  { intros k <- K. apply nat_ascii_embedding, K. }
  assert (onD : forall k, ascii_of_nat k = d -> (k < 256)%nat ->
                  nat_of_ascii d = k).
  { intros k <- K. apply nat_ascii_embedding, K. }
  assert (backC : forall k, nat_of_ascii c = k -> c = ascii_of_nat k).
  { intros k <-. symmetry. apply ascii_nat_embedding. }
  assert (backD : forall k, nat_of_ascii d = k -> d = ascii_of_nat k).
  { intros k <-. symmetry. apply ascii_nat_embedding. }
  destruct (Nat.leb_spec 65 (nat_of_ascii c)) as [ C1 | C1 ];
    destruct (Nat.leb_spec (nat_of_ascii c) 90) as [ C2 | C2 ];
    destruct (Nat.leb_spec 65 (nat_of_ascii d)) as [ D1 | D1 ];
    destruct (Nat.leb_spec (nat_of_ascii d) 90) as [ D2 | D2 ];
    cbn [andb]; split; intros K.
  all: try (left; apply same; apply inj in K; lia).
  all: try (left; exact K).
  all: try (pose proof (onD _ K) as E; right; left; lia).
  all: try (pose proof (onC _ (eq_sym K)) as E; right; right; lia).
  all: try (destruct K as [ K | [ (R & E) | (R & E) ] ];
            try lia; try (subst; reflexivity); try (subst; lia)).
  all: try (apply backD in E; exact (eq_sym E)).
  all: try (apply backC in E; exact E).
Qed.

Lemma toLowerCase_EqualIgnoringCase (s t : string) :
  JsString.toLowerCase s = JsString.toLowerCase t <-> EqualIgnoringCase s t.
Proof.
  split.
  - revert t. induction s as [ | c s IH ]; intros [ | d t ] E;
      try discriminate E; [ constructor | ].
    cbn [JsString.toLowerCase] in E. injection E as Eu Es.
    constructor; [ apply toLowerUnit_SameLetter, Eu | apply IH, Es ].
  - intros E. induction E as [ | c d s t L E IH ]; [ reflexivity | ].
    cbn [JsString.toLowerCase].
    rewrite IH, (proj2 (toLowerUnit_SameLetter c d) L). reflexivity.
Qed.

Lemma includes_toLowerCase (s t : string) :
  JsString.includes (JsString.toLowerCase s) (JsString.toLowerCase t) = true
  <-> ContainsIgnoringCase s t.
Proof.
  rewrite includes_spec. unfold Contains, ContainsIgnoringCase. split.
  - intros (pre' & post' & E).
    apply toLowerCase_split in E as (pre & rest & -> & _ & E).
    apply toLowerCase_split in E as (mid & post & -> & E & _).
    exists pre, mid, post. split; [ reflexivity | ].
    apply toLowerCase_EqualIgnoringCase, E.
  - intros (pre & mid & post & -> & E).
    apply toLowerCase_EqualIgnoringCase in E.
    exists (JsString.toLowerCase pre), (JsString.toLowerCase post).
    rewrite !toLowerCase_app, E. reflexivity.
Qed.

Lemma ContainsIgnoringCase_empty (s : string) : ContainsIgnoringCase s "".
Proof. exists "", "", s. split; [ reflexivity | constructor ]. Qed.

Lemma searchCallback_spec (term : string) (planet : Exoplanet) :
  searchCallback (JsString.toLowerCase term) planet = true <->
  SearchMatches term planet.
Proof.
  unfold searchCallback, SearchMatches.
  rewrite orb_true_iff, includes_toLowerCase.
  destruct (hostname planet) as [ h | ].
  - rewrite andb_true_iff, includes_toLowerCase. split.
    + intros [ N | [_ H] ]; [ left; exact N | ].
      right. exists h. split; [ reflexivity | exact H ].
    + intros [ N | (h' & E & H) ]; [ left; exact N | ].
      injection E as <-.
      destruct h as [ | c h ]; [ | right; split; [ reflexivity | exact H ] ].
      left. destruct H as (pre & mid & post & E & L).
      destruct pre; [ | discriminate E ].
      destruct mid; [ | discriminate E ].
      inversion L. apply ContainsIgnoringCase_empty.
  - split.
    + intros [ N | F ]; [ left; exact N | discriminate F ].
    + intros [ N | (h' & E & _) ]; [ left; exact N | discriminate E ].
Qed.



(** ** Reset *)

(** C9: [resetFilters] empties the search box and both selections and makes
    [filtered] the very array that [all] is, whatever the store held. *)
Theorem resetFilters_restores_all (w : World) :
  searchInput (resetFilters w) = "" /\
  discoveryMethodFilter (resetFilters w) = "" /\
  habitableFilter (resetFilters w) = "" /\
  filteredExoplanets (resetFilters w) = allExoplanets (resetFilters w) /\
  ref (filteredExoplanets (resetFilters w)) =
    ref (allExoplanets (resetFilters w)) /\
  allExoplanets (resetFilters w) = allExoplanets w /\
  currentPage (resetFilters w) = currentPage w.
Proof.
  destruct (resetFilters_store w) as (F & A & P & S & M & H).
  rewrite F, A. repeat split; assumption.
Qed.

(** ** Page loads *)

Lemma loadExoplanets_rejected (page : Z) (r : FetchResult) (w : World) :
  r = FetchRejected \/ r = JsonRejected ->
  StoreUnchanged w (loadExoplanets page r w).
Proof.
  intros R. unfold loadExoplanets, StoreUnchanged.
  destruct (settle_rejected_store page r (loadExoplanets_request page w) R)
    as (A & F & P).
  destruct (request_store page w) as (A' & F' & P' & _).
  rewrite A, F, P. repeat split; assumption.
Qed.

Lemma step_settle_rejected (i : nat) (r : FetchResult) (w : World) :
  r = FetchRejected \/ r = JsonRejected ->
  StoreUnchanged w (step (Settle i r) w).
Proof.
  intros R. unfold StoreUnchanged. cbn [step].
  destruct (nth_error (inFlight w) i) as [ page | ];
    [ | repeat split ].
  destruct (settle_rejected_store page r
              (set_inFlight (removeNth i (inFlight w)) w) R) as (A & F & P).
  rewrite A, F, P. destruct w. repeat split.
Qed.

Lemma settle_outcome_kept (page : Z) (o : FetchOutcome) (w : World) :
  caught o = true ->
  (page <> 1%Z \/ o <> ResolvedWithoutExoplanets) ->
  StoreKept w (loadExoplanets_settle_outcome page o w).
Proof.
  intros C N. destruct o as [ [ | | data ] | | ]; try discriminate C;
    cbn [loadExoplanets_settle_outcome StoreKept].
  - apply settle_rejected_store. left. reflexivity.
  - apply settle_rejected_store. right. reflexivity.
  - destruct w. repeat split.
  - destruct (Z.eqb_spec page 1) as [ E | _ ].
    + destruct N as [ N | N ]; [ contradiction | contradiction N; reflexivity ].
    + cbn [StoreKept]. destruct w. repeat split.
Qed.

Lemma outcome_kept (page : Z) (o : FetchOutcome) (w : World) :
  caught o = true ->
  (page <> 1%Z \/ o <> ResolvedWithoutExoplanets) ->
  StoreKept w (loadExoplanets_outcome page o w).
Proof.
  intros C N. unfold loadExoplanets_outcome.
  pose proof (settle_outcome_kept page o (loadExoplanets_request page w) C N)
    as K.
  destruct (request_store page w) as (A & F & P & _).
  destruct (loadExoplanets_settle_outcome page o
              (loadExoplanets_request page w)) as [ v | u ];
    [ | exact K ].
  cbn [StoreKept] in *. destruct K as (A' & F' & P').
  unfold StoreUnchanged. rewrite A', F', P'. repeat split; assumption.
Qed.

(** C6: a failed load of a page does not always leave the store as it
    was.  When [fetch] or [response.json()] rejects, [allExoplanets],
    [filteredExoplanets] and [currentPage] are what they were, for every
    page and every store, also when the rejection arrives through the
    event loop; the same holds when the body is [null], and when a body
    without [exoplanets] answers a request for a later page.  But when a
    body without [exoplanets] answers a request for page 1, the [catch]
    block runs after both arrays were overwritten: the load fails, shows
    the failure message, leaves [currentPage] alone, and leaves
    [allExoplanets] and [filteredExoplanets] undefined. *)
Theorem failed_first_page_load_leaves_arrays_undefined :
  (forall (page : Z) (w : World),
     StoreUnchanged w (loadExoplanets page FetchRejected w) /\
     StoreUnchanged w (loadExoplanets page JsonRejected w) /\
     StoreUnchanged w (loadExoplanets_settle page FetchRejected w) /\
     StoreUnchanged w (loadExoplanets_settle page JsonRejected w) /\
     (forall i : nat,
        StoreUnchanged w (step (Settle i FetchRejected) w) /\
        StoreUnchanged w (step (Settle i JsonRejected) w))) /\
  (forall (page : Z) (o : FetchOutcome) (w : World),
     caught o = true ->
     page <> 1%Z \/ o <> ResolvedWithoutExoplanets ->
     StoreKept w (loadExoplanets_outcome page o w) /\
     StoreKept w (loadExoplanets_settle_outcome page o w)) /\
  (forall w : World,
     caught ResolvedWithoutExoplanets = true /\
     loadExoplanets_outcome 1 ResolvedWithoutExoplanets w =
       ArraysUndefined
         (Bare.mkPage (currentPage w) (searchInput w)
            (discoveryMethodFilter w) (habitableFilter w)
            [LoadFailedMessage] (loadMoreBtn w) (nextRef w) (inFlight w)) /\
     ~ StoreKept w (loadExoplanets_outcome 1 ResolvedWithoutExoplanets w) /\
     ~ StoreKept w
         (loadExoplanets_settle_outcome 1 ResolvedWithoutExoplanets w)).
Proof.
  split.
  { intros page w.
    split; [ apply loadExoplanets_rejected; left; reflexivity | ].
    split; [ apply loadExoplanets_rejected; right; reflexivity | ].
    split; [ repeat split | ].
    split; [ repeat split | ].
    intros i.
    split; apply step_settle_rejected; [ left | right ]; reflexivity. }
  split.
  { intros page o w C N.
    split; [ apply outcome_kept | apply settle_outcome_kept ]; assumption. }
  intros w. split; [ reflexivity | ].
  split; [ destruct w; reflexivity | ].
  split; intros K; exact K.
Qed.

(** C6 at the store holding Kepler-1b and TRAPPIST-1e: a reload of page 1
    answered by a body without [exoplanets] leaves no arrays, while the
    same body answering a request for page 2 leaves the store as it
    was. *)
Lemma failed_first_page_load_leaves_arrays_undefined_witness :
  loadExoplanets_outcome 1 ResolvedWithoutExoplanets twoPlanetsLoaded =
    ArraysUndefined
      (Bare.mkPage 1 "" "" "" [LoadFailedMessage] DisplayBlock 3 []) /\
  StoreKept twoPlanetsLoaded
    (loadExoplanets_outcome 2 ResolvedWithoutExoplanets twoPlanetsLoaded).
Proof.
  destruct failed_first_page_load_leaves_arrays_undefined
    as (_ & kept & undefined).
  split.
  - destruct (undefined twoPlanetsLoaded) as (_ & E & _).
    rewrite E. reflexivity.
  - apply (kept 2%Z ResolvedWithoutExoplanets twoPlanetsLoaded);
      [ reflexivity | left; discriminate ].
Defined.

Lemma loadExoplanets_first_page (data : PageData) (w : World) :
  items (allExoplanets (loadExoplanets 1 (Resolved data) w)) =
    exoplanets data /\
  items (filteredExoplanets (loadExoplanets 1 (Resolved data) w)) =
    exoplanets data /\
  currentPage (loadExoplanets 1 (Resolved data) w) = 1%Z.
Proof.
  unfold loadExoplanets.
  destruct (settle_first_page_store data (loadExoplanets_request 1 w))
    as (A & F & P).
  rewrite F, A, P. repeat split.
Qed.

Lemma loadExoplanets_later_page (page : Z) (data : PageData) (w : World) :
  page <> 1%Z ->
  items (allExoplanets (loadExoplanets page (Resolved data) w)) =
    (items (allExoplanets w) ++ exoplanets data)%list /\
  items (filteredExoplanets (loadExoplanets page (Resolved data) w)) =
    (items (filteredExoplanets w) ++ exoplanets data)%list /\
  currentPage (loadExoplanets page (Resolved data) w) = page.
Proof.
  intros N. unfold loadExoplanets.
  destruct (settle_later_page_store page data
              (loadExoplanets_request page w) N) as (A & F & P).
  destruct (request_store page w) as (A' & F' & _).
  rewrite A, F, P, A', F'. repeat split.
Qed.

(** C7: a load of page 1 replaces [all] and [filtered] by the fetched page,
    so that loading page 1 twice with the same response leaves what loading
    it once leaves; a load of any other page appends the fetched page to
    both and replaces nothing. *)
Theorem first_page_replaces_other_pages_append
    (w : World) (data : PageData) :
  items (allExoplanets (loadExoplanets 1 (Resolved data) w)) =
    exoplanets data /\
  items (filteredExoplanets (loadExoplanets 1 (Resolved data) w)) =
    exoplanets data /\
  items (allExoplanets
           (loadExoplanets 1 (Resolved data)
              (loadExoplanets 1 (Resolved data) w))) =
    items (allExoplanets (loadExoplanets 1 (Resolved data) w)) /\
  items (filteredExoplanets
           (loadExoplanets 1 (Resolved data)
              (loadExoplanets 1 (Resolved data) w))) =
    items (filteredExoplanets (loadExoplanets 1 (Resolved data) w)) /\
  (forall page : Z,
     page <> 1%Z ->
     items (allExoplanets (loadExoplanets page (Resolved data) w)) =
       (items (allExoplanets w) ++ exoplanets data)%list /\
     items (filteredExoplanets (loadExoplanets page (Resolved data) w)) =
       (items (filteredExoplanets w) ++ exoplanets data)%list).
Proof.
  destruct (loadExoplanets_first_page data w) as (A & F & _).
  destruct (loadExoplanets_first_page data
              (loadExoplanets 1 (Resolved data) w)) as (A2 & F2 & _).
  rewrite A, F, A2, F2. repeat (split; [ reflexivity | ]).
  intros page N.
  destruct (loadExoplanets_later_page page data w N) as (A' & F' & _).
  split; assumption.
Qed.

(** C7 at page 2, loaded after the two planets of the search example. *)
Lemma first_page_replaces_other_pages_append_witness :
  items (allExoplanets
           (loadExoplanets 2 (Resolved (mkPageData [trappist1f] false))
              twoPlanetsLoaded)) =
    [kepler1b; trappist1e; trappist1f] /\
  items (filteredExoplanets
           (loadExoplanets 2 (Resolved (mkPageData [trappist1f] false))
              twoPlanetsLoaded)) =
    [kepler1b; trappist1e; trappist1f].
Proof.
  destruct (first_page_replaces_other_pages_append twoPlanetsLoaded
              (mkPageData [trappist1f] false)) as (_ & _ & _ & _ & later).
  apply (later 2%Z). discriminate.
Defined.

(** ** Page numbers along a run of the page *)

Lemma removeNth_Forall {A : Type} (P : A -> Prop) (i : nat) (l : list A) :
  Forall P l -> Forall P (removeNth i l).
Proof.
  intros F. revert i. induction F as [ | x l Px F IH ]; intros i.
  - destruct i; constructor.
  - destruct i; simpl; [ exact F | constructor; [ exact Px | apply IH ] ].
Qed.

Lemma nth_error_Forall {A : Type} (P : A -> Prop) (i : nat) (l : list A)
    (x : A) :
  Forall P l -> nth_error l i = Some x -> P x.
Proof.
  intros F E. apply nth_error_In in E.
  rewrite Forall_forall in F. apply F. exact E.
Qed.

Lemma settle_currentPage (page : Z) (r : FetchResult) (w : World) :
  currentPage (loadExoplanets_settle page r w) = currentPage w \/
  currentPage (loadExoplanets_settle page r w) = page.
Proof.
  destruct r as [ | | data ]; [ left; reflexivity | left; reflexivity | ].
  right. by_cases_of_operation; reflexivity.
Qed.

Lemma settle_inFlight (page : Z) (r : FetchResult) (w : World) :
  inFlight (loadExoplanets_settle page r w) = inFlight w.
Proof.
  destruct r as [ | | data ]; [ reflexivity | reflexivity | ].
  by_cases_of_operation; reflexivity.
Qed.

Lemma step_PagesPositive (ev : Event) (w : World) :
  PagesPositive w -> PagesPositive (step ev w).
Proof.
  unfold PagesPositive. intros (P & F).
  destruct ev; cbn [step];
    try (by_cases_of_operation; split; assumption).
  - by_cases_of_operation; cbn in P, F;
      (split; [ exact P | ]); apply Forall_app;
      (split; [ exact F | ]); (constructor; [ lia | constructor ]).
  - by_cases_of_operation; cbn in P, F;
      (split; [ exact P | ]); apply Forall_app;
      (split; [ exact F | ]); (constructor; [ lia | constructor ]).
  - destruct (nth_error (inFlight w) i) as [ page | ] eqn:E;
      [ | split; assumption ].
    rewrite settle_inFlight.
    pose proof (nth_error_Forall _ _ _ _ F E) as Ppage.
    split.
    + destruct (settle_currentPage page r
                  (set_inFlight (removeNth i (inFlight w)) w)) as [ S | S ];
        rewrite S; [ destruct w; exact P | exact Ppage ].
    + destruct w; cbn in *. apply removeNth_Forall. exact F.
Qed.

Lemma run_PagesPositive (trace : list Event) (w : World) :
  PagesPositive w -> PagesPositive (run trace w).
Proof.
  revert w. induction trace as [ | ev trace IH ]; intros w P.
  - exact P.
  - apply IH, step_PagesPositive, P.
Qed.

Lemma currentPage_positive (trace : list Event) :
  (1 <= currentPage (run trace initialWorld))%Z.
Proof.
  apply (run_PagesPositive trace initialWorld).
  split; [ cbn; lia | constructor ].
Qed.

(** C5: [loadMoreExoplanets] only adds.  On a successful fetch of page
    [currentPage + 1] the fetched planets are appended to [all] and,
    unfiltered, to [filtered], every planet already there stays in place,
    and [currentPage] goes up by one.  After a first page of 12 planets and
    a next page of 5, [all] holds 17 planets and [currentPage] is 2.  This
    holds in every store whose [currentPage] is at least 1, which is every
    store a run of the page can reach. *)
Theorem loadMoreExoplanets_is_additive (w : World) (data : PageData) :
  ((1 <= currentPage w)%Z ->
   items (allExoplanets (loadMoreExoplanets (Resolved data) w)) =
     (items (allExoplanets w) ++ exoplanets data)%list /\
   items (filteredExoplanets (loadMoreExoplanets (Resolved data) w)) =
     (items (filteredExoplanets w) ++ exoplanets data)%list /\
   currentPage (loadMoreExoplanets (Resolved data) w) =
     (currentPage w + 1)%Z) /\
  (forall trace : list Event,
     items (allExoplanets
              (loadMoreExoplanets (Resolved data) (run trace initialWorld))) =
       (items (allExoplanets (run trace initialWorld)) ++
        exoplanets data)%list /\
     items (filteredExoplanets
              (loadMoreExoplanets (Resolved data) (run trace initialWorld))) =
       (items (filteredExoplanets (run trace initialWorld)) ++
        exoplanets data)%list /\
     currentPage
       (loadMoreExoplanets (Resolved data) (run trace initialWorld)) =
       (currentPage (run trace initialWorld) + 1)%Z) /\
  (forall first : PageData,
     List.length (exoplanets first) = 12%nat ->
     List.length (exoplanets data) = 5%nat ->
     List.length
       (items (allExoplanets
                 (loadMoreExoplanets (Resolved data)
                    (loadExoplanets 1 (Resolved first) w)))) = 17%nat /\
     currentPage
       (loadMoreExoplanets (Resolved data)
          (loadExoplanets 1 (Resolved first) w)) = 2%Z).
Proof.
  assert (additive : forall v : World,
            (1 <= currentPage v)%Z ->
            items (allExoplanets (loadMoreExoplanets (Resolved data) v)) =
              (items (allExoplanets v) ++ exoplanets data)%list /\
            items (filteredExoplanets (loadMoreExoplanets (Resolved data) v))
              = (items (filteredExoplanets v) ++ exoplanets data)%list /\
            currentPage (loadMoreExoplanets (Resolved data) v) =
              (currentPage v + 1)%Z).
  { intros v P. unfold loadMoreExoplanets.
    apply loadExoplanets_later_page. lia. }
  split; [ apply additive | ].
  split; [ intros trace; apply additive, currentPage_positive | ].
  intros first L12 L5.
  destruct (loadExoplanets_first_page first w) as (A & _ & P).
  destruct (additive (loadExoplanets 1 (Resolved first) w)) as (A' & _ & P').
  { rewrite P. lia. }
  rewrite A', P', A, P, length_app, L12, L5. split; reflexivity.
Qed.

(** C5 after the two planets of the search example, and for pages of 12
    and 5 planets. *)
Lemma loadMoreExoplanets_is_additive_witness :
  (items (allExoplanets
            (loadMoreExoplanets (Resolved (mkPageData [trappist1f] false))
               twoPlanetsLoaded)) =
     [kepler1b; trappist1e; trappist1f] /\
   currentPage
     (loadMoreExoplanets (Resolved (mkPageData [trappist1f] false))
        twoPlanetsLoaded) = 2%Z) /\
  (List.length
     (items (allExoplanets
               (loadMoreExoplanets
                  (Resolved (mkPageData (repeat trappist1f 5) false))
                  (loadExoplanets 1
                     (Resolved (mkPageData (repeat kepler1b 12) true))
                     initialWorld)))) = 17%nat).
Proof.
  split.
  - destruct (loadMoreExoplanets_is_additive twoPlanetsLoaded
                (mkPageData [trappist1f] false)) as (additive & _).
    destruct additive as (A & _ & P).
    + vm_compute. discriminate.
    + split; [ exact A | exact P ].
  - destruct (loadMoreExoplanets_is_additive initialWorld
                (mkPageData (repeat trappist1f 5) false))
      as (_ & _ & example).
    destruct (example (mkPageData (repeat kepler1b 12) true)
                eq_refl eq_refl) as (L & _).
    exact L.
Defined.

(** ** The store along a run of the page *)

Lemma set_inFlight_store (v : list Z) (w : World) :
  allExoplanets (set_inFlight v w) = allExoplanets w /\
  filteredExoplanets (set_inFlight v w) = filteredExoplanets w.
Proof. destruct w. split; reflexivity. Qed.

Lemma FilteredTracks_same_store (P : Exoplanet -> bool) (w w' : World) :
  allExoplanets w' = allExoplanets w ->
  filteredExoplanets w' = filteredExoplanets w ->
  FilteredTracks P w -> FilteredTracks P w'.
Proof.
  intros A F (loaded & appended & HA & HF).
  exists loaded, appended. rewrite A, F. split; assumption.
Qed.

Lemma FilteredTracks_recomputed (P : Exoplanet -> bool) (w : World) :
  items (filteredExoplanets w) = filter P (items (allExoplanets w)) ->
  FilteredTracks P w.
Proof.
  intros E. exists (items (allExoplanets w)), [].
  rewrite E, !app_nil_r. split; reflexivity.
Qed.

Lemma step_FilteredTracks (ev : Event) (w : World) (P : Exoplanet -> bool) :
  FilteredTracks P w -> FilteredTracks (appliedBy ev w P) (step ev w).
Proof.
  intros T. destruct ev; cbn [step appliedBy].
  - revert T. apply FilteredTracks_same_store; destruct w; reflexivity.
  - revert T. apply FilteredTracks_same_store; destruct w; reflexivity.
  - revert T. apply FilteredTracks_same_store; destruct w; reflexivity.
  - destruct (searchExoplanets_store w) as (S & A & _).
    apply FilteredTracks_recomputed. rewrite S, A. reflexivity.
  - destruct (applyFilters_store w) as (S & A & _).
    apply FilteredTracks_recomputed. rewrite S, A. reflexivity.
  - destruct (resetFilters_store w) as (F & A & _).
    apply FilteredTracks_recomputed. rewrite F, A.
    symmetry. apply filter_everything. reflexivity.
  - destruct (request_store 1 w) as (A & F & _).
    destruct (set_inFlight_store
                (inFlight (loadExoplanets_request 1 w) ++ [1%Z])
                (loadExoplanets_request 1 w)) as (A' & F').
    revert T. apply FilteredTracks_same_store; congruence.
  - destruct (request_store (currentPage w + 1) w) as (A & F & _).
    destruct (set_inFlight_store
                (inFlight (loadExoplanets_request (currentPage w + 1) w) ++
                 [(currentPage w + 1)%Z])
                (loadExoplanets_request (currentPage w + 1) w)) as (A' & F').
    revert T. apply FilteredTracks_same_store; congruence.
  - destruct (nth_error (inFlight w) i) as [ page | ]; [ | exact T ].
    destruct (set_inFlight_store (removeNth i (inFlight w)) w) as (A & F).
    assert (T' : FilteredTracks P
                   (set_inFlight (removeNth i (inFlight w)) w))
      by (revert T; apply FilteredTracks_same_store; assumption).
    clear T A F. revert T'.
    generalize (set_inFlight (removeNth i (inFlight w)) w). clear w.
    intros w T.
    destruct r as [ | | data ].
    + revert T. apply FilteredTracks_same_store; reflexivity.
    + revert T. apply FilteredTracks_same_store; reflexivity.
    + destruct (Z.eq_dec page 1) as [ -> | N ].
      * destruct (settle_first_page_store data w) as (A & F & _).
        exists [], (exoplanets data). rewrite F, A. split; reflexivity.
      * destruct (settle_later_page_store page data w N) as (A & F & _).
        destruct T as (loaded & appended & HA & HF).
        exists loaded, (appended ++ exoplanets data)%list.
        rewrite A, F, HA, HF, !app_assoc. split; reflexivity.
Qed.

Lemma run_FilteredTracks (trace : list Event) (w : World)
    (P : Exoplanet -> bool) :
  FilteredTracks P w -> FilteredTracks (lastApplied trace w P) (run trace w).
Proof.
  revert w P. induction trace as [ | ev trace IH ]; intros w P T.
  - exact T.
  - cbn [lastApplied run]. apply IH, step_FilteredTracks, T.
Qed.

Lemma FilteredTracks_Subsequence (P : Exoplanet -> bool) (w : World) :
  FilteredTracks P w ->
  Subsequence (items (filteredExoplanets w)) (items (allExoplanets w)).
Proof.
  intros (loaded & appended & -> & ->).
  apply Subsequence_app; [ apply Subsequence_filter | apply Subsequence_refl ].
Qed.

Lemma step_settle_later_page (w : World) (i : nat) (page : Z)
    (data : PageData) :
  nth_error (inFlight w) i = Some page -> page <> 1%Z ->
  items (allExoplanets (step (Settle i (Resolved data)) w)) =
    (items (allExoplanets w) ++ exoplanets data)%list /\
  items (filteredExoplanets (step (Settle i (Resolved data)) w)) =
    (items (filteredExoplanets w) ++ exoplanets data)%list.
Proof.
  intros E N. cbn [step]. rewrite E.
  destruct (settle_later_page_store page data
              (set_inFlight (removeNth i (inFlight w)) w) N) as (A & F & _).
  destruct (set_inFlight_store (removeNth i (inFlight w)) w) as (A' & F').
  rewrite A, F, A', F'. split; reflexivity.
Qed.

Lemma FilteredIs_same_store (P : Exoplanet -> bool)
    (parts : list Exoplanet * list Exoplanet) (w w' : World) :
  allExoplanets w' = allExoplanets w ->
  filteredExoplanets w' = filteredExoplanets w ->
  FilteredIs P parts w -> FilteredIs P parts w'.
Proof. unfold FilteredIs. intros -> ->. exact id. Qed.

Lemma FilteredIs_recomputed (P : Exoplanet -> bool) (w v : World) :
  items (filteredExoplanets v) = filter P (items (allExoplanets v)) ->
  allExoplanets v = allExoplanets w ->
  FilteredIs P (items (allExoplanets w), []) v.
Proof.
  intros E A. unfold FilteredIs. cbn [fst snd].
  rewrite E, A, !app_nil_r. split; reflexivity.
Qed.

Lemma step_FilteredIs (ev : Event) (w : World) (P : Exoplanet -> bool)
    (parts : list Exoplanet * list Exoplanet) :
  FilteredIs P parts w ->
  FilteredIs (appliedBy ev w P) (sinceAppliedBy ev w parts) (step ev w).
Proof.
  intros T. destruct ev; cbn [step appliedBy sinceAppliedBy].
  - revert T. apply FilteredIs_same_store; destruct w; reflexivity.
  - revert T. apply FilteredIs_same_store; destruct w; reflexivity.
  - revert T. apply FilteredIs_same_store; destruct w; reflexivity.
  - destruct (searchExoplanets_store w) as (S & A & _).
    apply FilteredIs_recomputed; [ rewrite S, A; reflexivity | exact A ].
  - destruct (applyFilters_store w) as (S & A & _).
    apply FilteredIs_recomputed; [ rewrite S, A; reflexivity | exact A ].
  - destruct (resetFilters_store w) as (F & A & _).
    apply FilteredIs_recomputed; [ | exact A ].
    rewrite F, A. symmetry. apply filter_everything. reflexivity.
  - destruct (request_store 1 w) as (A & F & _).
    destruct (set_inFlight_store
                (inFlight (loadExoplanets_request 1 w) ++ [1%Z])
                (loadExoplanets_request 1 w)) as (A' & F').
    revert T. apply FilteredIs_same_store; congruence.
  - destruct (request_store (currentPage w + 1) w) as (A & F & _).
    destruct (set_inFlight_store
                (inFlight (loadExoplanets_request (currentPage w + 1) w) ++
                 [(currentPage w + 1)%Z])
                (loadExoplanets_request (currentPage w + 1) w)) as (A' & F').
    revert T. apply FilteredIs_same_store; congruence.
  - destruct (nth_error (inFlight w) i) as [ page | ] eqn:E.
    + destruct (set_inFlight_store (removeNth i (inFlight w)) w) as (A & F).
      destruct r as [ | | data ].
      * revert T. apply FilteredIs_same_store; assumption.
      * revert T. apply FilteredIs_same_store; assumption.
      * destruct (Z.eqb_spec page 1) as [ -> | N ].
        -- destruct (settle_first_page_store data
                       (set_inFlight (removeNth i (inFlight w)) w))
             as (A1 & F1 & _).
           unfold FilteredIs. cbn [fst snd filter app].
           rewrite F1, A1. split; reflexivity.
        -- pose proof (step_settle_later_page w i page data E N) as S.
           cbn [step] in S. rewrite E in S. destruct S as (A1 & F1).
           destruct T as (HA & HF). unfold FilteredIs. cbn [fst snd].
           rewrite A1, F1, HA, HF, !app_assoc. split; reflexivity.
    + destruct r as [ | | data ]; exact T.
Qed.

Lemma run_FilteredIs (trace : list Event) (w : World)
    (P : Exoplanet -> bool) (parts : list Exoplanet * list Exoplanet) :
  FilteredIs P parts w ->
  FilteredIs (lastApplied trace w P) (sinceApplied trace w parts)
    (run trace w).
Proof.
  revert w P parts. induction trace as [ | ev trace IH ]; intros w P parts T.
  - exact T.
  - cbn [lastApplied sinceApplied run]. apply IH, step_FilteredIs, T.
Qed.

(** C1, as the claim words it, is refuted by a run of the page: the first
    page brings Kepler-1b and TRAPPIST-1e, the user searches for "kepler",
    and the next page brings TRAPPIST-1f.  The search predicate is still in
    force and selects only Kepler-1b from [all], while [filtered] holds
    Kepler-1b and TRAPPIST-1f. *)
Lemma load_more_bypasses_active_search : ~ FilteredIsImageOfAll.
Proof.
  intros claim.
  specialize (claim [CallLoadExoplanets;
                     Settle 0 (Resolved
                                 (mkPageData [kepler1b; trappist1e] true));
                     EditSearchInput "kepler";
                     RunSearchExoplanets;
                     CallLoadMoreExoplanets;
                     Settle 0 (Resolved (mkPageData [trappist1f] false))]).
  vm_compute in claim. discriminate claim.
Qed.

(** C1, amended: at every point between operations [filtered] is a
    subsequence of [all].  Right after [searchExoplanets] or [applyFilters]
    it is exactly what that operation's predicate selects from [all]; right
    after [resetFilters] and after a load of page 1 it is [all] itself.  A
    later page is appended to [filtered] and to [all] as fetched, whatever
    predicate is in force, both when the load runs to completion and when
    its response arrives among other events.  So along every trace
    [filtered] is exactly what the predicate last applied selects from the
    part of [all] that was there when it was applied, followed by the pages
    appended since ([sinceApplied] computes the two parts from the
    trace). *)
Theorem filtered_is_subsequence_of_all :
  (forall w : World,
     items (filteredExoplanets (searchExoplanets w)) =
     filter (searchCallback (JsString.toLowerCase (searchInput w)))
       (items (allExoplanets (searchExoplanets w)))) /\
  (forall w : World,
     items (filteredExoplanets (applyFilters w)) =
     filter (filterCallback (discoveryMethodFilter w) (habitableFilter w))
       (items (allExoplanets (applyFilters w)))) /\
  (forall w : World,
     filteredExoplanets (resetFilters w) = allExoplanets (resetFilters w)) /\
  (forall (w : World) (data : PageData),
     filteredExoplanets (loadExoplanets 1 (Resolved data) w) =
     allExoplanets (loadExoplanets 1 (Resolved data) w)) /\
  (forall trace : list Event,
     Subsequence (items (filteredExoplanets (run trace initialWorld)))
       (items (allExoplanets (run trace initialWorld))) /\
     FilteredTracks (lastApplied trace initialWorld (fun _ => true))
       (run trace initialWorld)) /\
  (forall (w : World) (page : Z) (data : PageData),
     page <> 1%Z ->
     items (filteredExoplanets (loadExoplanets page (Resolved data) w)) =
       (items (filteredExoplanets w) ++ exoplanets data)%list /\
     items (allExoplanets (loadExoplanets page (Resolved data) w)) =
       (items (allExoplanets w) ++ exoplanets data)%list) /\
  (forall (w : World) (i : nat) (page : Z) (data : PageData),
     nth_error (inFlight w) i = Some page -> page <> 1%Z ->
     items (filteredExoplanets (step (Settle i (Resolved data)) w)) =
       (items (filteredExoplanets w) ++ exoplanets data)%list /\
     items (allExoplanets (step (Settle i (Resolved data)) w)) =
       (items (allExoplanets w) ++ exoplanets data)%list) /\
  (forall trace : list Event,
     FilteredIs (lastApplied trace initialWorld (fun _ => true))
       (sinceApplied trace initialWorld ([], []))
       (run trace initialWorld)).
Proof.
  split.
  { intros w. destruct (searchExoplanets_store w) as (S & A & _).
    rewrite S, A. reflexivity. }
  split.
  { intros w. destruct (applyFilters_store w) as (S & A & _).
    rewrite S, A. reflexivity. }
  split.
  { intros w. destruct (resetFilters_store w) as (F & A & _).
    rewrite F, A. reflexivity. }
  split.
  { intros w data. unfold loadExoplanets.
    apply (settle_first_page_store data (loadExoplanets_request 1 w)). }
  split.
  { intros trace.
    assert (T : FilteredTracks
                  (lastApplied trace initialWorld (fun _ => true))
                  (run trace initialWorld)).
    { apply run_FilteredTracks. exists [], []. split; reflexivity. }
    split; [ apply (FilteredTracks_Subsequence _ _ T) | exact T ]. }
  split.
  { intros w page data N.
    destruct (loadExoplanets_later_page page data w N) as (A & F & _).
    split; assumption. }
  split.
  { intros w i page data E N.
    destruct (step_settle_later_page w i page data E N) as (A & F).
    split; assumption. }
  intros trace. apply run_FilteredIs. split; reflexivity.
Qed.

(** C1 at the run of the counterexample: the second page is appended to
    [filtered] as fetched. *)
Lemma filtered_is_subsequence_of_all_witness :
  items (filteredExoplanets
           (loadExoplanets 2 (Resolved (mkPageData [trappist1f] false))
              (searchExoplanets
                 (set_searchInput "kepler" twoPlanetsLoaded)))) =
    [kepler1b; trappist1f] /\
  items (allExoplanets
           (loadExoplanets 2 (Resolved (mkPageData [trappist1f] false))
              (searchExoplanets
                 (set_searchInput "kepler" twoPlanetsLoaded)))) =
    [kepler1b; trappist1e; trappist1f].
Proof.
  destruct filtered_is_subsequence_of_all
    as (_ & _ & _ & _ & _ & appended & _).
  apply (appended (searchExoplanets
                     (set_searchInput "kepler" twoPlanetsLoaded))
           2%Z (mkPageData [trappist1f] false)).
  discriminate.
Defined.

(** ** Rounding to a fixed number of decimals *)

(** The digits of [n] with the point [f] places from the right. *)
Lemma fixedDigits_examples :
  JsNumber.fixedDigits 1 620 = "62.0" /\
  JsNumber.fixedDigits 1 5 = "0.5" /\
  JsNumber.fixedDigits 1 0 = "0.0" /\
  JsNumber.fixedDigits 1 1000 = "100.0" /\
  JsNumber.fixedDigits 2 7 = "0.07" /\
  JsNumber.fixedDigits 2 1234 = "12.34" /\
  JsNumber.fixedDigits 0 3 = "3".
Proof. repeat split. Qed.

Lemma nearestScaled_RoundedTo (f : nat) (x : Q) :
  RoundedTo f (JsNumber.nearestScaled f x) x.
Proof.
  unfold RoundedTo, JsNumber.nearestScaled. intros k.
  set (y := (x * inject_Z (10 ^ Z.of_nat f))%Q). cbv zeta.
  pose proof (Qfloor_le (y + (1 # 2))) as Lo.
  pose proof (Qlt_floor (y + (1 # 2))) as Hi.
  set (n := Qfloor (y + (1 # 2))) in *.
  rewrite inject_Z_plus in Hi. change (inject_Z 1) with 1%Q in Hi.
  destruct (Z_lt_le_dec k n) as [ Lt | Ge ].
  - assert (K : (inject_Z k <= inject_Z n - 1)%Q).
    { assert (k <= n - 1)%Z as K by lia. rewrite Zle_Qle in K.
      unfold Z.sub in K. rewrite inject_Z_plus in K. exact K. }
    split.
    + apply Qabs_case; intros; apply Qabs_case; intros; lra.
    + intros _. lia.
  - destruct (Z.eq_dec k n) as [ -> | Ne ].
    + split; [ apply Qle_refl | intros _; lia ].
    + assert (K : (inject_Z n + 1 <= inject_Z k)%Q).
      { assert (n + 1 <= k)%Z as K by lia. rewrite Zle_Qle in K.
        rewrite inject_Z_plus in K. exact K. }
      split.
      * apply Qabs_case; intros; apply Qabs_case; intros; lra.
      * revert K. generalize (inject_Z k). intros q K.
        apply Qabs_case; intros A; apply Qabs_case; intros B E; lra.
Qed.

(** [magnitude] is the exact value of a float that is not negative. *)
Lemma magnitude_exact (x : float) (r : Q) :
  JsNumber.magnitude x = Some r -> ExactValue x r.
Proof.
  unfold JsNumber.magnitude, ExactValue.
  destruct (Prim2SF x) as [ s | s | | s m e ]; try discriminate.
  - intros E. injection E as <-. reflexivity.
  - destruct s; [ discriminate | ]. intros E. injection E as <-.
    rewrite Qmult_1_l. destruct e as [ | p | p ].
    + cbn [Qpower]. rewrite Qmult_1_r. reflexivity.
    + change (2 # 1) with (inject_Z 2).
      rewrite <- Zpower_Qpower by (apply Pos2Z.is_nonneg).
      rewrite <- inject_Z_mult. reflexivity.
    + rewrite Qpower_decomp_neg_pos.
      rewrite Z.pow_1_l by (apply Pos2Z.is_nonneg).
      unfold Qeq, Qmult, inject_Z. cbn [Qnum Qden].
      rewrite Pos.mul_1_l, Z.mul_1_r. reflexivity.
Qed.

(** ** Decimal numerals *)

Ltac read_digit :=
  match goal with
  | |- context [digitValue ?c] =>
      let v := eval vm_compute in (digitValue c) in
      change (digitValue c) with v; cbv beta iota
  end.

(** The digits the library prints for a number write that number. *)
Lemma readDigits_of_uint_acc (d : Decimal.uint) (acc : positive) :
  readDigits (Z.pos acc) (NilEmpty.string_of_uint d) =
    Some (Z.pos (Pos.of_uint_acc d acc)).
Proof.
  revert acc. induction d; intros acc; cbn [NilEmpty.string_of_uint
    readDigits Pos.of_uint_acc]; try reflexivity;
    read_digit; rewrite <- IHd; f_equal; lia.
Qed.

Lemma readDigits_of_uint (d : Decimal.uint) :
  readDigits 0 (NilEmpty.string_of_uint d) = Some (Z.of_N (Pos.of_uint d)).
Proof.
  induction d; cbn [NilEmpty.string_of_uint readDigits Pos.of_uint];
    try reflexivity; try exact IHd;
    read_digit; apply readDigits_of_uint_acc.
Qed.

Lemma to_uint_not_Nil (n : N) : N.to_uint n <> Decimal.Nil.
Proof.
  rewrite <- (DecimalN.Unsigned.of_to n) at 1.
  rewrite DecimalN.Unsigned.to_of. apply DecimalFacts.unorm_nonnil.
Qed.

Lemma decimalDigits_reads (n : Z) :
  (0 <= n)%Z -> readDigits 0 (JsNumber.decimalDigits n) = Some n.
Proof.
  intros P. unfold JsNumber.decimalDigits.
  pose proof (to_uint_not_Nil (Z.to_N n)) as NN.
  assert (E : NilZero.string_of_uint (N.to_uint (Z.to_N n)) =
              NilEmpty.string_of_uint (N.to_uint (Z.to_N n))).
  { destruct (N.to_uint (Z.to_N n)); [ contradiction | reflexivity .. ]. }
  rewrite E, readDigits_of_uint.
  change (Pos.of_uint (N.to_uint (Z.to_N n))) with
    (N.of_uint (N.to_uint (Z.to_N n))).
  rewrite DecimalN.Unsigned.of_to, Z2N.id by exact P. reflexivity.
Qed.

Lemma nzhead_head (d u : Decimal.uint) : Decimal.nzhead d <> Decimal.D0 u.
Proof.
  induction d; cbn [Decimal.nzhead]; try discriminate. exact IHd.
Qed.

Lemma decimalDigits_head (n : Z) :
  (0 < n)%Z ->
  exists (c : ascii) (rest : string),
    JsNumber.decimalDigits n = String c rest /\ c <> "0"%char.
Proof.
  intros P. unfold JsNumber.decimalDigits.
  assert (U : N.to_uint (Z.to_N n) = Decimal.unorm (N.to_uint (Z.to_N n))).
  { rewrite <- (DecimalN.Unsigned.of_to (Z.to_N n)) at 1.
    apply DecimalN.Unsigned.to_of. }
  assert (Z : Decimal.nzhead (N.to_uint (Z.to_N n)) <> Decimal.Nil).
  { intros E. apply DecimalFacts.unorm_0 in E. rewrite <- U in E.
    pose proof (DecimalN.Unsigned.of_to (Z.to_N n)) as O.
    rewrite E in O. cbn in O. lia. }
  rewrite (DecimalFacts.unorm_nzhead _ Z) in U.
  pose proof (nzhead_head (N.to_uint (Z.to_N n))) as H.
  rewrite <- U in H.
  destruct (N.to_uint (Z.to_N n)) as [ | u | u | u | u | u | u | u | u | u | u ];
    [ contradiction (to_uint_not_Nil (Z.to_N n)); congruence
    | contradiction (H u); reflexivity
    | cbn [NilZero.string_of_uint NilEmpty.string_of_uint];
      eexists; eexists; split; [ reflexivity | discriminate ] .. ].
Qed.

Lemma length_append (s t : string) :
  String.length (s ++ t) = (String.length s + String.length t)%nat.
Proof. induction s; cbn [append String.length Nat.add]; congruence. Qed.

Lemma length_zeros (k : nat) : String.length (JsNumber.zeros k) = k.
Proof. induction k; cbn [JsNumber.zeros String.length]; congruence. Qed.

Lemma substring_none (s : string) : substring 0 0 s = "".
Proof. destruct s; reflexivity. Qed.

Lemma substring_all (s : string) : substring 0 (String.length s) s = s.
Proof.
  induction s as [ | c s IH ]; [ reflexivity | ].
  cbn [String.length substring]. f_equal. exact IH.
Qed.

Lemma substring_split (s : string) (a : nat) :
  (a <= String.length s)%nat ->
  substring 0 a s ++ substring a (String.length s - a) s = s.
Proof.
  revert a. induction s as [ | c s IH ]; intros a L.
  - destruct a; reflexivity.
  - destruct a as [ | a ].
    + rewrite substring_none, Nat.sub_0_r. apply substring_all.
    + cbn [String.length] in L.
      cbn [substring String.length Nat.sub append]. f_equal.
      apply IH. lia.
Qed.

Lemma substring_length (s : string) (a b : nat) :
  (a + b <= String.length s)%nat -> String.length (substring a b s) = b.
Proof.
  revert a b. induction s as [ | c s IH ]; intros a b L.
  - cbn [String.length] in L. destruct a, b; try lia. reflexivity.
  - cbn [String.length] in L. destruct a as [ | a ].
    + destruct b as [ | b ]; [ reflexivity | ].
      cbn [substring String.length]. f_equal. apply (IH 0%nat). lia.
    + cbn [substring]. apply IH. lia.
Qed.

Lemma substring_head (c : ascii) (s : string) (a : nat) :
  substring 0 (S a) (String c s) = String c (substring 0 a s).
Proof. reflexivity. Qed.

Lemma readDigits_zeros (k : nat) (s : string) :
  readDigits 0 (JsNumber.zeros k ++ s) = readDigits 0 s.
Proof. induction k; [ reflexivity | exact IHk ]. Qed.

(** The digits [toFixed] starts from: they write [n], and begin with a
    digit other than 0 unless [n] is 0. *)
Lemma digits_of_scaled (n : Z) :
  (0 <= n)%Z ->
  let m := if (n =? 0)%Z then "0" else JsNumber.decimalDigits n in
  readDigits 0 m = Some n /\
  ((n = 0%Z /\ m = "0") \/
   exists (c : ascii) (rest : string), m = String c rest /\ c <> "0"%char).
Proof.
  intros P. destruct (Z.eqb_spec n 0) as [ -> | N ]; cbv zeta.
  - split; [ reflexivity | left; split; reflexivity ].
  - split; [ apply decimalDigits_reads, P | right ].
    apply decimalDigits_head. lia.
Qed.

(** With at least one decimal, the digits of step 11 are the numeral of
    [n / 10^f] with [f] digits after the point. *)
Lemma fixedDigits_writes (f : nat) (n : Z) :
  (1 <= f)%nat -> (0 <= n)%Z -> WritesFixed f n (JsNumber.fixedDigits f n).
Proof.
  intros F P. unfold JsNumber.fixedDigits.
  destruct (digits_of_scaled n P) as (R & H).
  set (m := if (n =? 0)%Z then "0" else JsNumber.decimalDigits n) in *.
  clearbody m. destruct f as [ | f ]; [ lia | ].
  cbv zeta. destruct (Nat.leb_spec (String.length m) (S f)) as [ L | L ].
  - assert (K : String.length (JsNumber.zeros (S f + 1 - String.length m) ++ m)
                = S (S f)).
    { rewrite length_append, length_zeros.
      assert (1 <= String.length m)%nat; [ | lia ].
      destruct H as [ (_ & ->) | (c & rest & -> & _) ];
        cbn [String.length]; lia. }
    rewrite K.
    remember (S f - String.length m)%nat as j eqn:J.
    replace (S f + 1 - String.length m)%nat with (S j) in * by lia.
    replace (S (S f) - S f)%nat with 1%nat by lia.
    cbn [JsNumber.zeros append String.length] in *. injection K as K.
    exists "0", (JsNumber.zeros j ++ m).
    split.
    { cbn [substring]. rewrite substring_none. cbn [append].
      f_equal. f_equal. rewrite <- K. apply substring_all. }
    split; [ exact K | ].
    split; [ left; reflexivity | ].
    cbn [append readDigits]. change (digitValue "0") with (Some 0%Z).
    cbv beta iota. change (10 * 0 + 0)%Z with 0%Z.
    rewrite readDigits_zeros. exact R.
  - exists (substring 0 (String.length m - S f) m),
      (substring (String.length m - S f) (S f) m).
    split; [ reflexivity | ].
    split; [ apply substring_length; lia | ].
    assert (W : substring 0 (String.length m - S f) m ++
                substring (String.length m - S f) (S f) m = m).
    { pose proof (substring_split m (String.length m - S f)) as W.
      replace (String.length m - (String.length m - S f))%nat
        with (S f) in W by lia.
      apply W. lia. }
    split; [ | rewrite W; exact R ].
    right. destruct H as [ (_ & ->) | (c & rest & -> & N) ].
    + cbn [String.length] in L. lia.
    + cbn [String.length] in *.
      replace (S (String.length rest) - S f)%nat
        with (S (String.length rest - S f)) by lia.
      rewrite substring_head. eexists; eexists; split; [ reflexivity | exact N ].
Qed.

Lemma digitValue_range (c : ascii) (d : Z) :
  digitValue c = Some d -> (0 <= d <= 9)%Z.
Proof.
  unfold digitValue.
  destruct (Nat.leb_spec 48 (nat_of_ascii c)); [ | discriminate ].
  destruct (Nat.leb_spec (nat_of_ascii c) 57); [ | discriminate ].
  cbn [andb]. intros E. injection E as <-. lia.
Qed.

Lemma digitValue_inj (c c' : ascii) (d : Z) :
  digitValue c = Some d -> digitValue c' = Some d -> c = c'.
Proof.
  unfold digitValue.
  destruct (Nat.leb_spec 48 (nat_of_ascii c)); [ | discriminate ].
  destruct (Nat.leb_spec (nat_of_ascii c) 57); [ | discriminate ].
  destruct (Nat.leb_spec 48 (nat_of_ascii c')); [ | discriminate ].
  destruct (Nat.leb_spec (nat_of_ascii c') 57); [ | discriminate ].
  cbn [andb]. intros E E'. injection E as <-. injection E' as E'.
  rewrite <- (ascii_nat_embedding c), <- (ascii_nat_embedding c').
  f_equal. lia.
Qed.

Lemma readDigits_some (s : string) (acc v : Z) :
  readDigits acc s = Some v -> exists r : Z, readDigits 0 s = Some r.
Proof.
  generalize 0%Z. revert acc v.
  induction s as [ | c s IH ]; intros acc v a E; [ eexists; reflexivity | ].
  cbn [readDigits] in *. destruct (digitValue c); [ | discriminate E ].
  apply (IH _ _ _ E).
Qed.

Lemma readDigits_acc (s : string) (acc r : Z) :
  readDigits 0 s = Some r ->
  readDigits acc s = Some (acc * 10 ^ Z.of_nat (String.length s) + r)%Z /\
  (0 <= r < 10 ^ Z.of_nat (String.length s))%Z.
Proof.
  revert acc r. induction s as [ | c s IH ]; intros acc r.
  - cbn [readDigits String.length]. intros E. injection E as <-.
    split; [ f_equal; cbn; lia | cbn; lia ].
  - cbn [readDigits String.length]. destruct (digitValue c) as [ d | ] eqn:D;
      [ | discriminate ].
    pose proof (digitValue_range c d D) as B.
    replace (10 * 0 + d)%Z with d by lia. intros E.
    rewrite Nat2Z.inj_succ, Z.pow_succ_r by lia.
    destruct (readDigits 0 s) as [ r' | ] eqn:R.
    + destruct (IH d r' eq_refl) as (E' & B').
      rewrite E' in E. injection E as <-.
      destruct (IH (10 * acc + d)%Z r' eq_refl) as (-> & _).
      split; [ f_equal; lia | nia ].
    + destruct (readDigits_some _ _ _ E) as (r' & R').
      rewrite R' in R. discriminate R.
Qed.

Lemma readDigits_app (a b : string) (acc : Z) :
  readDigits acc (a ++ b) =
    match readDigits acc a with
    | Some x => readDigits x b
    | None => None
    end.
Proof.
  revert acc. induction a as [ | c a IH ]; intros acc; [ reflexivity | ].
  cbn [append readDigits]. destruct (digitValue c); [ apply IH | reflexivity ].
Qed.

Lemma readDigits_inj (a b : string) (r : Z) :
  String.length a = String.length b ->
  readDigits 0 a = Some r -> readDigits 0 b = Some r -> a = b.
Proof.
  revert b r. induction a as [ | c a IH ]; intros [ | c' b ] r L A B;
    try discriminate L; [ reflexivity | ].
  cbn [String.length] in L. injection L as L.
  cbn [readDigits] in A, B.
  destruct (digitValue c) as [ d | ] eqn:D; [ | discriminate A ].
  destruct (digitValue c') as [ d' | ] eqn:D'; [ | discriminate B ].
  pose proof (digitValue_range _ _ D). pose proof (digitValue_range _ _ D').
  replace (10 * 0 + d)%Z with d in A by lia.
  replace (10 * 0 + d')%Z with d' in B by lia.
  destruct (readDigits_some _ _ _ A) as (ra & Ra).
  destruct (readDigits_some _ _ _ B) as (rb & Rb).
  destruct (readDigits_acc a d ra Ra) as (A' & Ba).
  destruct (readDigits_acc b d' rb Rb) as (B' & Bb).
  rewrite A' in A. rewrite B' in B. rewrite <- L in *.
  injection A as A. injection B as B.
  assert (d = d') by nia. subst d'. assert (ra = rb) by lia. subst rb.
  f_equal; [ apply (digitValue_inj _ _ _ D D') | apply (IH b ra L Ra Rb) ].
Qed.

(** A numeral that starts with a digit other than 0 writes a number of as
    many digits as it has characters. *)
Lemma readDigits_leading (c : ascii) (rest : string) (v : Z) :
  c <> "0"%char -> readDigits 0 (String c rest) = Some v ->
  (10 ^ Z.of_nat (String.length rest) <= v <
   10 ^ Z.of_nat (S (String.length rest)))%Z.
Proof.
  intros N R. cbn [readDigits] in R.
  destruct (digitValue c) as [ d | ] eqn:D; [ | discriminate R ].
  pose proof (digitValue_range _ _ D) as B.
  assert (d <> 0%Z).
  { intros ->. apply N. apply (digitValue_inj _ _ 0 D). reflexivity. }
  replace (10 * 0 + d)%Z with d in R by lia.
  destruct (readDigits_some _ _ _ R) as (r & Rr).
  destruct (readDigits_acc rest d r Rr) as (E & Br).
  rewrite E in R. injection R as <-.
  rewrite Nat2Z.inj_succ, Z.pow_succ_r by lia. nia.
Qed.

Lemma readDigits_canonical (a b : string) (v : Z) :
  (a = "0" \/ exists c rest, a = String c rest /\ c <> "0"%char) ->
  (b = "0" \/ exists c rest, b = String c rest /\ c <> "0"%char) ->
  readDigits 0 a = Some v -> readDigits 0 b = Some v -> a = b.
Proof.
  intros [ -> | (c & rest & -> & N) ] [ -> | (c' & rest' & -> & N') ] A B.
  - reflexivity.
  - injection A as <-. pose proof (readDigits_leading _ _ _ N' B) as L.
    assert (0 < 10 ^ Z.of_nat (String.length rest'))%Z
      by (apply Z.pow_pos_nonneg; lia). lia.
  - injection B as <-. pose proof (readDigits_leading _ _ _ N A) as L.
    assert (0 < 10 ^ Z.of_nat (String.length rest))%Z
      by (apply Z.pow_pos_nonneg; lia). lia.
  - pose proof (readDigits_leading _ _ _ N A) as L.
    pose proof (readDigits_leading _ _ _ N' B) as L'.
    apply (readDigits_inj _ _ v); [ | assumption | assumption ].
    cbn [String.length]. f_equal.
    destruct (Nat.lt_trichotomy (String.length rest) (String.length rest'))
      as [ Lt | [ E | Gt ] ]; [ exfalso | exact E | exfalso ].
    + assert (10 ^ Z.of_nat (S (String.length rest)) <=
              10 ^ Z.of_nat (String.length rest'))%Z
        by (apply Z.pow_le_mono_r; lia). lia.
    + assert (10 ^ Z.of_nat (S (String.length rest')) <=
              10 ^ Z.of_nat (String.length rest))%Z
        by (apply Z.pow_le_mono_r; lia). lia.
Qed.

(** [WritesFixed] leaves no choice: one string writes [v] with [f] digits
    after the point. *)
Lemma WritesFixed_unique (f : nat) (v : Z) (s s' : string) :
  WritesFixed f v s -> WritesFixed f v s' -> s = s'.
Proof.
  intros (a & b & -> & Lb & Ca & R) (a' & b' & -> & Lb' & Ca' & R').
  rewrite readDigits_app in R, R'.
  destruct (readDigits 0 a) as [ w | ] eqn:A; [ | discriminate R ].
  destruct (readDigits 0 a') as [ w' | ] eqn:A'; [ | discriminate R' ].
  destruct (readDigits_some _ _ _ R) as (r & Rr).
  destruct (readDigits_some _ _ _ R') as (r' & Rr').
  destruct (readDigits_acc b w r Rr) as (E & B).
  destruct (readDigits_acc b' w' r' Rr') as (E' & B').
  rewrite E in R. rewrite E' in R'. rewrite Lb in *. rewrite Lb' in *.
  injection R as R. injection R' as R'.
  assert (w = w') by nia. subst w'. assert (r = r') by lia. subst r'.
  rewrite (readDigits_canonical a a' w Ca Ca' A A').
  rewrite (readDigits_inj b b' r (eq_trans Lb (eq_sym Lb')) Rr Rr').
  reflexivity.
Qed.

Lemma magnitude_nonneg (x : float) (r : Q) :
  JsNumber.magnitude x = Some r -> (0 <= r)%Q.
Proof.
  unfold JsNumber.magnitude.
  destruct (Prim2SF x) as [ s | s | | [ | ] m e ]; try discriminate;
    intros E; injection E as <-; [ apply Qle_refl | ].
  unfold Qle. destruct e as [ | p | p ]; cbn [Qnum Qden]; try lia.
  assert (P : (0 <= 2 ^ Z.pos p)%Z) by (apply Z.pow_nonneg; lia).
  change (2 ^ Z.pos p)%Z with (Z.pow_pos 2 p) in P.
  destruct (Z.pow_pos 2 p); lia.
Qed.

Lemma nearestScaled_nonneg (f : nat) (r : Q) :
  (0 <= r)%Q -> (0 <= JsNumber.nearestScaled f r)%Z.
Proof.
  intros P. unfold JsNumber.nearestScaled.
  change 0%Z with (Qfloor 0). apply Qfloor_resp_le.
  assert (T : (0 <= inject_Z (10 ^ Z.of_nat f))%Q).
  { change 0%Q with (inject_Z 0). rewrite <- Zle_Qle.
    apply Z.pow_nonneg. lia. }
  pose proof (Qmult_le_0_compat _ _ P T) as M. lra.
Qed.

Section Below1e21.

Variable NumberToString : float -> string.
Variable x : float.
Hypothesis Hbelow : PrimFloat.ltb (PrimFloat.abs x) 1e21 = true.

Lemma below_SF : SFltb (SFabs (Prim2SF x)) (Prim2SF 1e21) = true.
Proof. rewrite <- FloatAxioms.abs_spec, <- FloatAxioms.ltb_spec. exact Hbelow. Qed.

Lemma below_not_nan : PrimFloat.is_nan x = false.
Proof.
  unfold PrimFloat.is_nan.
  rewrite FloatAxioms.eqb_spec, SFeqb_refl; [ reflexivity | ].
  intros E. pose proof below_SF as B. rewrite E in B. discriminate B.
Qed.

Lemma below_not_infinity : PrimFloat.is_infinity x = false.
Proof.
  unfold PrimFloat.is_infinity.
  rewrite FloatAxioms.eqb_spec, FloatAxioms.abs_spec.
  pose proof below_SF as B.
  destruct (Prim2SF x) as [ s | s | | s m e ]; try reflexivity.
  vm_compute in B. discriminate B.
Qed.

Lemma below_not_above : PrimFloat.leb 1e21 (PrimFloat.abs x) = false.
Proof.
  destruct (PrimFloat.leb 1e21 (PrimFloat.abs x)) eqn:L; [ | reflexivity ].
  pose proof (leb_ltb_trans _ _ _ L Hbelow) as A.
  vm_compute in A. discriminate A.
Qed.

Lemma below_magnitude :
  exists r : Q, JsNumber.magnitude (PrimFloat.abs x) = Some r.
Proof.
  unfold JsNumber.magnitude. rewrite FloatAxioms.abs_spec.
  pose proof below_SF as B.
  destruct (Prim2SF x) as [ s | s | | s m e ]; simpl.
  - eexists; reflexivity.
  - vm_compute in B. discriminate B.
  - discriminate B.
  - eexists; reflexivity.
Qed.

(** Below 10^21 in magnitude, [toFixed] is the sign followed by the digits
    of the nearest multiple of [10^-f]. *)
Lemma toFixed_rounds (f : nat) :
  exists r : Q,
    JsNumber.magnitude (PrimFloat.abs x) = Some r /\
    RoundedTo f (JsNumber.nearestScaled f r) r /\
    JsNumber.toFixed NumberToString f x =
      (if PrimFloat.ltb x 0 then "-" else "") ++
      JsNumber.fixedDigits f (JsNumber.nearestScaled f r).
Proof.
  destruct below_magnitude as [r M]. exists r.
  split; [ exact M | ]. split; [ apply nearestScaled_RoundedTo | ].
  unfold JsNumber.toFixed.
  rewrite below_not_nan, below_not_infinity, below_not_above, M.
  reflexivity.
Qed.

(** So what it shows is the sign followed by the decimal numeral, with [f]
    digits after the point, of the magnitude rounded to [f] decimals. *)
Lemma toFixed_writes (f : nat) :
  (1 <= f)%nat ->
  exists (size : Q) (n : Z) (digits : string),
    ExactValue (PrimFloat.abs x) size /\
    RoundedTo f n size /\
    WritesFixed f n digits /\
    JsNumber.toFixed NumberToString f x =
      (if PrimFloat.ltb x 0 then "-" else "") ++ digits.
Proof.
  intros F. destruct (toFixed_rounds f) as (size & M & R & T).
  exists size, (JsNumber.nearestScaled f size),
    (JsNumber.fixedDigits f (JsNumber.nearestScaled f size)).
  split; [ apply magnitude_exact, M | ]. split; [ exact R | ].
  split; [ | exact T ].
  apply fixedDigits_writes; [ exact F | ].
  apply nearestScaled_nonneg, (magnitude_nonneg _ _ M).
Qed.

End Below1e21.

Lemma ExactValue_abs (x : float) (q : Q) :
  PrimFloat.ltb x 0 = false ->
  ExactValue (PrimFloat.abs x) q -> ExactValue x q.
Proof.
  unfold ExactValue.
  rewrite FloatAxioms.ltb_spec, FloatAxioms.abs_spec.
  replace (Prim2SF 0) with (S754_zero false) by reflexivity.
  destruct (Prim2SF x) as [ s | s | | [|] m e ]; intros L;
    try exact id.
  discriminate L.
Qed.

Lemma magnitude_abs (x : float) :
  PrimFloat.ltb x 0 = false ->
  JsNumber.magnitude (PrimFloat.abs x) = JsNumber.magnitude x.
Proof.
  unfold JsNumber.magnitude.
  rewrite FloatAxioms.ltb_spec, FloatAxioms.abs_spec.
  replace (Prim2SF 0) with (S754_zero false) by reflexivity.
  destruct (Prim2SF x) as [ s | s | | [|] m e ]; intros L;
    try reflexivity.
  discriminate L.
Qed.

(** ** A probability times 100 stays far below 10^21 *)

Lemma digits2_pos_upper (p : positive) :
  (Z.pos p < 2 ^ Z.pos (digits2_pos p))%Z.
Proof.
  induction p as [ p IH | p IH | ]; cbn [digits2_pos];
    rewrite ?Pos2Z.inj_succ, ?Z.pow_succ_r by lia; lia.
Qed.

Lemma digits2_pos_bound (p : positive) (k : Z) :
  (0 <= k)%Z -> (Z.pos p < 2 ^ k)%Z -> (Z.pos (digits2_pos p) <= k)%Z.
Proof.
  revert k.
  induction p as [ p IH | p IH | ]; intros k K B; cbn [digits2_pos];
    assert (N : k <> 0%Z) by (intros ->; cbn in B; lia);
    [ | | lia ];
    replace k with (Z.succ (k - 1)) in B by lia;
    rewrite Z.pow_succ_r in B by lia;
    rewrite Pos2Z.inj_succ; specialize (IH (k - 1)%Z); lia.
Qed.

Lemma Zdigits2_bound (m k : Z) :
  (0 <= m)%Z -> (0 <= k)%Z -> (m < 2 ^ k)%Z -> (Zdigits2 m <= k)%Z.
Proof.
  intros M K B. destruct m as [ | p | p ]; cbn [Zdigits2]; try lia.
  apply digits2_pos_bound; assumption.
Qed.

Lemma shr_1_range (mrs : shr_record) :
  (0 <= shr_m mrs)%Z -> (0 <= shr_m (shr_1 mrs) <= shr_m mrs)%Z.
Proof.
  destruct mrs as [ m r s ]. cbn [shr_m shr_1].
  destruct m as [ | [ p | p | ] | p ]; cbn [shr_m]; lia.
Qed.

Lemma iter_shr_1_range (p : positive) (mrs : shr_record) :
  (0 <= shr_m mrs)%Z ->
  (0 <= shr_m (SpecFloat.iter_pos shr_1 p mrs) <= shr_m mrs)%Z.
Proof.
  revert mrs.
  induction p as [ p IH | p IH | ]; intros mrs M; cbn [SpecFloat.iter_pos].
  - pose proof (shr_1_range mrs M) as A.
    pose proof (IH (shr_1 mrs) (proj1 A)) as B.
    pose proof (IH _ (proj1 B)) as C. lia.
  - pose proof (IH mrs M) as B.
    pose proof (IH _ (proj1 B)) as C. lia.
  - apply shr_1_range, M.
Qed.

Lemma shr_fexp_range (m e : Z) :
  (0 <= m)%Z ->
  (0 <= shr_m (fst (shr_fexp prec emax m e loc_Exact)) <= m)%Z /\
  (snd (shr_fexp prec emax m e loc_Exact) = e \/
   snd (shr_fexp prec emax m e loc_Exact) =
     fexp prec emax (Zdigits2 m + e)%Z).
Proof.
  intros M. unfold shr_fexp, shr.
  destruct (fexp prec emax (Zdigits2 m + e) - e)%Z as [ | n | n ] eqn:E;
    cbn [fst snd shr_record_of_loc shr_m];
    try (split; [ lia | left; reflexivity ]).
  split.
  - apply (iter_shr_1_range n (Build_shr_record m false false)). exact M.
  - right. lia.
Qed.

Lemma round_nearest_even_range (m : Z) (l : location) :
  (0 <= m)%Z -> (0 <= round_nearest_even m l <= m + 1)%Z.
Proof.
  intros M. destruct l as [ | [ | | ] ]; cbn [round_nearest_even];
    try destruct (Z.even m); lia.
Qed.

(** A non-negative product below [2^106 * 2^-98] rounds to zero or to a
    positive number of exponent at most 9; it does not overflow. *)
Lemma binary_round_aux_small (mx ex : Z) :
  (0 <= mx < 2 ^ 106)%Z -> (ex <= -98)%Z ->
  match binary_round_aux prec emax false mx ex loc_Exact with
  | S754_zero _ => True
  | S754_finite false _ e => (e <= 9)%Z
  | _ => False
  end.
Proof.
  intros M E. unfold binary_round_aux.
  pose proof (shr_fexp_range mx ex (proj1 M)) as (R1 & E1).
  destruct (shr_fexp prec emax mx ex loc_Exact) as [ mrs' e' ].
  cbn [fst snd] in R1, E1.
  assert (D1 : (Zdigits2 mx <= 106)%Z) by (apply Zdigits2_bound; lia).
  assert (E' : (e' <= -45)%Z).
  { destruct E1 as [ -> | -> ]; [ lia | ].
    unfold fexp, emin, prec, emax. lia. }
  pose proof (round_nearest_even_range (shr_m mrs') (loc_of_shr_record mrs')
                (proj1 R1)) as R.
  set (mr := round_nearest_even (shr_m mrs') (loc_of_shr_record mrs')) in *.
  pose proof (shr_fexp_range mr e' (proj1 R)) as (R2 & E2).
  destruct (shr_fexp prec emax mr e' loc_Exact) as [ mrs'' e'' ].
  cbn [fst snd] in R2, E2.
  assert (D2 : (Zdigits2 mr <= 107)%Z) by (apply Zdigits2_bound; lia).
  assert (E'' : (e'' <= 9)%Z).
  { destruct E2 as [ -> | -> ]; [ lia | ].
    unfold fexp, emin, prec, emax. lia. }
  destruct (shr_m mrs'') as [ | m | m ]; [ exact I | | lia ].
  replace (e'' <=? emax - prec)%Z with true; [ exact E'' | ].
  symmetry. apply Z.leb_le. unfold emax, prec. lia.
Qed.

Lemma valid_mantissa_bound (s : bool) (m : positive) (e : Z) :
  valid_binary (S754_finite s m e) = true -> (Z.pos m < 2 ^ 53)%Z.
Proof.
  cbn [SpecFloat.valid_binary]. unfold bounded, canonical_mantissa.
  intros V. apply andb_true_iff in V as [C _]. apply Z.eqb_eq in C.
  pose proof (digits2_pos_upper m) as U.
  assert (D : (Z.pos (digits2_pos m) <= 53)%Z)
    by (revert C; unfold fexp, emin, prec, emax; lia).
  apply (Z.lt_le_trans _ _ _ U).
  apply Z.pow_le_mono_r; lia.
Qed.

Lemma probability_percent (p : float) :
  PrimFloat.leb 0 p = true -> PrimFloat.leb p 1 = true ->
  PrimFloat.ltb (PrimFloat.abs (p * 100)) 1e21 = true /\
  PrimFloat.ltb (p * 100) 0 = false.
Proof.
  rewrite !FloatAxioms.ltb_spec, FloatAxioms.abs_spec, FloatAxioms.mul_spec,
    !FloatAxioms.leb_spec.
  replace (Prim2SF 0) with (S754_zero false) by reflexivity.
  replace (Prim2SF 1) with (S754_finite false 4503599627370496 (-52))
    by reflexivity.
  replace (Prim2SF 100) with (S754_finite false 7036874417766400 (-46))
    by reflexivity.
  replace (Prim2SF 1e21) with (S754_finite false 7629394531250000 17)
    by reflexivity.
  pose proof (Prim2SF_valid p) as V.
  destruct (Prim2SF p) as [ s | s | | s m e ].
  - intros _ _. destruct s; split; reflexivity.
  - destruct s; discriminate.
  - discriminate.
  - intros L0 L1. destruct s; [ discriminate L0 | ].
    apply valid_mantissa_bound in V.
    assert (E : (e <= -52)%Z).
    { revert L1. unfold SFleb, SFcompare.
      destruct (Z.compare_spec e (-52)); intros L;
        (lia || discriminate L). }
    clear L0 L1. unfold SF64mul, SFmul. cbn [xorb].
    pose proof (binary_round_aux_small
                  (Z.pos (m * 7036874417766400)) (e + -46)) as B.
    destruct (binary_round_aux prec emax false
                (Z.pos (m * 7036874417766400)) (e + -46) loc_Exact)
      as [ s' | s' | | s' m' e' ].
    + destruct s'; split; reflexivity.
    + exfalso. apply B; lia.
    + exfalso. apply B; lia.
    + destruct s'; [ exfalso; apply B; lia | ].
      split; [ | reflexivity ].
      unfold SFltb, SFabs, SFcompare.
      replace (e' ?= 17)%Z with Lt; [ reflexivity | ].
      symmetry. apply Z.compare_lt_iff.
      assert (e' <= 9)%Z by (apply B; lia). lia.
Qed.

(** ** The prediction panel *)

(** C8: the verdict of [displayPredictionResult] is positive exactly when
    the prediction flag is 1 or the probability exceeds 0.5, and the panel's
    title, caption and detail row follow it.  The confidence shown is the
    probability times 100 (the float product, taken at its exact value)
    rounded to one decimal: for a probability between 0 and 1 it is the
    decimal numeral, with one digit after the point and no leading zero, of
    [n / 10], where [n] is the integer nearest to ten times the percentage
    (the larger one on a tie); and more generally so, with a sign before
    the numeral of the magnitude, whenever the percentage is below 10^21 in
    magnitude.  For a prediction flag 0 and a probability
    0.62 the verdict is positive and the confidence is "62.0"; a missing
    planet type or habitable zone is shown as "Unknown". *)
Theorem displayPredictionResult_verdict_and_confidence
    (NumberToString : float -> string) (result : PredictionResult) :
  hasExoplanet result =
    (PrimFloat.eqb (prediction result) 1 ||
     PrimFloat.ltb 0.5 (probability result)) /\
  result_status (displayPredictionResult NumberToString result) =
    hasExoplanet result /\
  result_title (displayPredictionResult NumberToString result) =
    (if hasExoplanet result then "Exoplanet Detected!"
     else "No Exoplanet Detected") /\
  detail_prediction (displayPredictionResult NumberToString result) =
    (if hasExoplanet result then "Positive" else "Negative") /\
  detail_confidence (displayPredictionResult NumberToString result) =
    confidence NumberToString result ++ "%" /\
  (planet_type result = None ->
   detail_planet_type (displayPredictionResult NumberToString result) =
     "Unknown") /\
  (habitable_zone result = None ->
   detail_habitability (displayPredictionResult NumberToString result) =
     "Unknown") /\
  (PrimFloat.leb 0 (probability result) = true ->
   PrimFloat.leb (probability result) 1 = true ->
   exists (percentage : Q) (n : Z),
     ExactValue (probability result * 100) percentage /\
     RoundedTo 1 n percentage /\
     WritesFixed 1 n (confidence NumberToString result)) /\
  (PrimFloat.ltb (PrimFloat.abs (probability result * 100)) 1e21 = true ->
   exists (size : Q) (n : Z) (digits : string),
     ExactValue (PrimFloat.abs (probability result * 100)) size /\
     RoundedTo 1 n size /\
     WritesFixed 1 n digits /\
     confidence NumberToString result =
       (if PrimFloat.ltb (probability result * 100) 0 then "-" else "") ++
       digits) /\
  hasExoplanet (mkPredictionResult 0 0.62 None None) = true /\
  confidence NumberToString (mkPredictionResult 0 0.62 None None) = "62.0".
Proof.
  split; [ reflexivity | ].
  split; [ reflexivity | ].
  split; [ reflexivity | ].
  split; [ reflexivity | ].
  split; [ reflexivity | ].
  split.
  { intros E. cbn [displayPredictionResult detail_planet_type].
    rewrite E. reflexivity. }
  split.
  { intros E. cbn [displayPredictionResult detail_habitability].
    rewrite E. reflexivity. }
  split.
  { intros L0 L1.
    destruct (probability_percent _ L0 L1) as (below & unsigned).
    destruct (toFixed_writes NumberToString _ below 1 (le_n 1))
      as (percentage & n & digits & V & R & W & T).
    exists percentage, n.
    split; [ apply (ExactValue_abs _ _ unsigned), V | ].
    split; [ exact R | ].
    unfold confidence. rewrite T, unsigned. exact W. }
  split.
  { intros below. apply (toFixed_writes NumberToString _ below 1 (le_n 1)). }
  split; reflexivity.
Qed.

(** C8 at prediction flag 0 and probability 0.62. *)
Lemma displayPredictionResult_verdict_and_confidence_witness :
  detail_planet_type
    (displayPredictionResult (fun _ => "")
       (mkPredictionResult 0 0.62 None None)) = "Unknown" /\
  detail_habitability
    (displayPredictionResult (fun _ => "")
       (mkPredictionResult 0 0.62 None None)) = "Unknown" /\
  (exists (percentage : Q) (n : Z),
     ExactValue (0.62 * 100) percentage /\
     RoundedTo 1 n percentage /\
     WritesFixed 1 n
       (confidence (fun _ => "") (mkPredictionResult 0 0.62 None None))) /\
  confidence (fun _ => "") (mkPredictionResult 0 0.62 None None) = "62.0".
Proof.
  destruct (displayPredictionResult_verdict_and_confidence (fun _ => "")
              (mkPredictionResult 0 0.62 None None))
    as (_ & _ & _ & _ & _ & type & zone & unit & _ & _ & shown).
  split; [ apply type; reflexivity | ].
  split; [ apply zone; reflexivity | ].
  split; [ exact (unit eq_refl eq_refl) | exact shown ].
Defined.

(* ------------------------------------------------------------------ *)
(** * Further properties *)

(** ** The grid and the filtered view *)

Lemma displayExoplanets_grid (xs : JsArray) (w : World) :
  exoplanetGrid (displayExoplanets xs w) = renderGrid (items xs).
Proof.
  unfold displayExoplanets, renderGrid.
  destruct (items xs) as [ | x l ]; destruct w; reflexivity.
Qed.

Lemma displayExoplanets_filtered (xs : JsArray) (w : World) :
  filteredExoplanets (displayExoplanets xs w) = filteredExoplanets w /\
  allExoplanets (displayExoplanets xs w) = allExoplanets w.
Proof. by_cases_of_operation; split; reflexivity. Qed.

Lemma displayExoplanets_shows (w : World) :
  GridShowsFiltered (displayExoplanets (filteredExoplanets w) w).
Proof.
  unfold GridShowsFiltered. rewrite displayExoplanets_grid.
  destruct (displayExoplanets_filtered (filteredExoplanets w) w) as (F & _).
  rewrite F. reflexivity.
Qed.

(** X1: after [searchExoplanets], [applyFilters], [resetFilters] and a
    successful load of page 1 the grid shows the filtered view: one card per
    planet of [filtered], in order and with its type badge, or the single
    placeholder when [filtered] is empty; the spinner and the failure
    message are gone. *)
Theorem handlers_leave_grid_showing_filtered (w : World) (data : PageData) :
  GridShowsFiltered (searchExoplanets w) /\
  GridShowsFiltered (applyFilters w) /\
  GridShowsFiltered (resetFilters w) /\
  GridShowsFiltered (loadExoplanets 1 (Resolved data) w).
Proof.
  split.
  { unfold searchExoplanets.
    destruct (String.eqb (JsString.toLowerCase (searchInput w)) "").
    - apply displayExoplanets_shows.
    - destruct (newArray _ w) as [r v]. apply displayExoplanets_shows. }
  split.
  { unfold applyFilters. destruct (newArray _ w) as [r v].
    apply displayExoplanets_shows. }
  split; [ apply displayExoplanets_shows | ].
  unfold loadExoplanets, loadExoplanets_settle. rewrite Z.eqb_refl.
  destruct (newArray _ _) as [r v].
  generalize (displayExoplanets_shows
                (set_filteredExoplanets r (set_allExoplanets r v))).
  generalize (displayExoplanets
                (filteredExoplanets
                   (set_filteredExoplanets r (set_allExoplanets r v)))
                (set_filteredExoplanets r (set_allExoplanets r v))).
  intros u. unfold GridShowsFiltered. destruct u, (has_more data); exact id.
Qed.

Lemma settle_later_page_grid (page : Z) (data : PageData) (w : World) :
  page <> 1%Z ->
  exoplanetGrid (loadExoplanets page (Resolved data) w) =
    (exoplanetGrid w ++ map createPlanetCard (exoplanets data))%list.
Proof.
  intros N. apply Z.eqb_neq in N.
  unfold loadExoplanets, loadExoplanets_request, loadExoplanets_settle.
  rewrite N. by_cases_of_operation; reflexivity.
Qed.

(** X2: a successful load of a later page adds one card per fetched planet
    at the end of the grid and leaves the nodes already there.  When the
    grid showed a non-empty filtered view before, it shows the filtered view
    afterwards. *)
Theorem later_page_extends_grid (page : Z) (data : PageData) (w : World) :
  page <> 1%Z ->
  exoplanetGrid (loadExoplanets page (Resolved data) w) =
    (exoplanetGrid w ++ map createPlanetCard (exoplanets data))%list /\
  (GridShowsFiltered w -> items (filteredExoplanets w) <> [] ->
   GridShowsFiltered (loadExoplanets page (Resolved data) w)).
Proof.
  intros N. split; [ apply settle_later_page_grid, N | ].
  intros G NE. unfold GridShowsFiltered in *.
  destruct (loadExoplanets_later_page page data w N) as (_ & F & _).
  rewrite settle_later_page_grid, F, G by exact N.
  destruct (items (filteredExoplanets w)) as [ | x l ]; [ congruence | ].
  cbn [renderGrid app map]. rewrite map_app. reflexivity.
Qed.

Lemma later_page_extends_grid_witness :
  GridShowsFiltered
    (loadExoplanets 2 (Resolved (mkPageData [trappist1f] false))
       twoPlanetsLoaded).
Proof.
  destruct (later_page_extends_grid 2 (mkPageData [trappist1f] false)
              twoPlanetsLoaded) as (_ & shows).
  - discriminate.
  - apply shows; [ reflexivity | discriminate ].
Defined.

(** X3: when the filtered view is empty and the grid shows its placeholder,
    a successful load of a later page that brings planets leaves the
    placeholder in front of the new cards: the grid then says that nothing
    matches and shows planets below it. *)
Theorem later_page_keeps_placeholder (page : Z) (data : PageData)
    (w : World) :
  page <> 1%Z ->
  GridShowsFiltered w ->
  items (filteredExoplanets w) = [] ->
  exoplanetGrid (loadExoplanets page (Resolved data) w) =
    NoResultsMessage :: map createPlanetCard (exoplanets data) /\
  items (filteredExoplanets (loadExoplanets page (Resolved data) w)) =
    exoplanets data /\
  (exoplanets data <> [] ->
   ~ GridShowsFiltered (loadExoplanets page (Resolved data) w)).
Proof.
  intros N G E. unfold GridShowsFiltered in *.
  destruct (loadExoplanets_later_page page data w N) as (_ & F & _).
  rewrite settle_later_page_grid, F, G, E by exact N.
  cbn [renderGrid app]. repeat split.
  intros NE. destruct (exoplanets data) as [ | x l ]; [ congruence | ].
  cbn [renderGrid map]. discriminate.
Qed.

Lemma later_page_keeps_placeholder_witness :
  exoplanetGrid
    (loadExoplanets 2 (Resolved (mkPageData [trappist1f] false))
       (searchExoplanets (set_searchInput "zzz" twoPlanetsLoaded))) =
    [NoResultsMessage; createPlanetCard trappist1f].
Proof.
  destruct (later_page_keeps_placeholder 2 (mkPageData [trappist1f] false)
              (searchExoplanets (set_searchInput "zzz" twoPlanetsLoaded)))
    as (grid & _).
  - discriminate.
  - reflexivity.
  - reflexivity.
  - exact grid.
Defined.

Lemma handlers_overwrite_grid (g : list GridNode) (w : World) :
  searchExoplanets (set_exoplanetGrid g w) = searchExoplanets w /\
  applyFilters (set_exoplanetGrid g w) = applyFilters w /\
  resetFilters (set_exoplanetGrid g w) = resetFilters w.
Proof.
  by_cases_of_operation; repeat split; try reflexivity;
    cbn [items] in *; congruence.
Qed.

Lemma handlers_after_request (page : Z) (w : World) :
  searchExoplanets (loadExoplanets_request page w) = searchExoplanets w /\
  applyFilters (loadExoplanets_request page w) = applyFilters w /\
  resetFilters (loadExoplanets_request page w) = resetFilters w.
Proof.
  unfold loadExoplanets_request. destruct (page =? 1)%Z.
  - apply handlers_overwrite_grid.
  - repeat split.
Qed.

(** X4: a failed load of any page, a later one included, replaces the whole
    grid by the failure message, so the cards of the planets already loaded
    are gone.  Unless the failure is a body without [exoplanets] answering
    a request for page 1, the store still holds the planets, and the next
    [searchExoplanets], [applyFilters] or [resetFilters] leaves the page as
    if the failed load had not happened.  After a body without
    [exoplanets] for page 1 the three handlers throw instead, and the
    failure message stays. *)
Theorem failed_load_replaces_grid (page : Z) (o : FetchOutcome) (w : World) :
  caught o = true ->
  gridAfter (loadExoplanets_outcome page o w) = [LoadFailedMessage] /\
  (page <> 1%Z \/ o <> ResolvedWithoutExoplanets ->
   searchExoplanets_after (loadExoplanets_outcome page o w) =
     Returned (ArraysIntact (searchExoplanets w)) /\
   applyFilters_after (loadExoplanets_outcome page o w) =
     Returned (ArraysIntact (applyFilters w)) /\
   resetFilters_after (loadExoplanets_outcome page o w) =
     Returned (ArraysIntact (resetFilters w))) /\
  (page = 1%Z -> o = ResolvedWithoutExoplanets ->
   searchExoplanets_after (loadExoplanets_outcome page o w) =
     Threw (loadExoplanets_outcome page o w) /\
   applyFilters_after (loadExoplanets_outcome page o w) =
     Threw (loadExoplanets_outcome page o w) /\
   exists u : Bare.Page,
     resetFilters_after (loadExoplanets_outcome page o w) =
       Threw (ArraysUndefined u) /\
     Bare.exoplanetGrid u = [LoadFailedMessage]).
Proof.
  intros C. unfold loadExoplanets_outcome.
  destruct (handlers_after_request page w) as (S' & A' & R').
  destruct (handlers_overwrite_grid [LoadFailedMessage]
              (loadExoplanets_request page w)) as (S & A & R).
  rewrite S' in S. rewrite A' in A. rewrite R' in R.
  destruct o as [ [ | | data ] | | ]; try discriminate C;
    cbn [loadExoplanets_settle_outcome loadExoplanets_settle].
  - split; [ destruct (loadExoplanets_request page w); reflexivity | ].
    cbn [searchExoplanets_after applyFilters_after resetFilters_after].
    rewrite S, A, R. split; [ repeat split | discriminate ].
  - split; [ destruct (loadExoplanets_request page w); reflexivity | ].
    cbn [searchExoplanets_after applyFilters_after resetFilters_after].
    rewrite S, A, R. split; [ repeat split | discriminate ].
  - split; [ destruct (loadExoplanets_request page w); reflexivity | ].
    cbn [searchExoplanets_after applyFilters_after resetFilters_after].
    rewrite S, A, R. split; [ repeat split | discriminate ].
  - destruct (Z.eqb_spec page 1) as [ E | N ].
    + split; [ destruct (loadExoplanets_request page w); reflexivity | ].
      split.
      * intros [ N | N ]; [ contradiction | contradiction N; reflexivity ].
      * intros _ _.
        cbn [searchExoplanets_after applyFilters_after resetFilters_after].
        split; [ reflexivity | ]. split; [ reflexivity | ].
        eexists. split; [ reflexivity | ].
        destruct (loadExoplanets_request page w); reflexivity.
    + split; [ destruct (loadExoplanets_request page w); reflexivity | ].
      cbn [searchExoplanets_after applyFilters_after resetFilters_after].
      rewrite S, A, R. split; [ repeat split | contradiction ].
Qed.

(** X4 at the store holding Kepler-1b and TRAPPIST-1e: a second page that
    fails to arrive wipes the two cards, and [resetFilters] brings them
    back. *)
Lemma failed_load_replaces_grid_witness :
  gridAfter (loadExoplanets_outcome 2 (Outcome FetchRejected)
               twoPlanetsLoaded) = [LoadFailedMessage] /\
  resetFilters_after (loadExoplanets_outcome 2 (Outcome FetchRejected)
                        twoPlanetsLoaded) =
    Returned (ArraysIntact (resetFilters twoPlanetsLoaded)) /\
  exoplanetGrid (resetFilters twoPlanetsLoaded) =
    [PlanetCard kepler1b "Unknown Type"; PlanetCard trappist1e "Unknown Type"].
Proof.
  destruct (failed_load_replaces_grid 2 (Outcome FetchRejected)
              twoPlanetsLoaded eq_refl) as (G & H & _).
  split; [ exact G | ].
  split; [ apply H; left; discriminate | ].
  reflexivity.
Defined.

(** ** Requests under way *)

Lemma step_callLoadMore (w : World) :
  (1 <= currentPage w)%Z ->
  exists v : World,
    step CallLoadMoreExoplanets w = v /\
    inFlight v = (inFlight w ++ [(currentPage w + 1)%Z])%list /\
    allExoplanets v = allExoplanets w /\
    filteredExoplanets v = filteredExoplanets w /\
    currentPage v = currentPage w.
Proof.
  intros P. eexists. split; [ reflexivity | ].
  cbn [step]. unfold loadExoplanets_request.
  replace (currentPage w + 1 =? 1)%Z with false
    by (symmetry; apply Z.eqb_neq; lia).
  destruct w. repeat split.
Qed.

Lemma step_settle_later (page : Z) (rest : list Z) (data : PageData)
    (w : World) :
  inFlight w = page :: rest -> page <> 1%Z ->
  exists v : World,
    step (Settle 0 (Resolved data)) w = v /\
    inFlight v = rest /\
    items (allExoplanets v) =
      (items (allExoplanets w) ++ exoplanets data)%list /\
    items (filteredExoplanets v) =
      (items (filteredExoplanets w) ++ exoplanets data)%list /\
    currentPage v = page.
Proof.
  intros E N. eexists. split; [ reflexivity | ].
  cbn [step]. rewrite E. cbn [nth_error removeNth].
  rewrite settle_inFlight.
  destruct (settle_later_page_store page data (set_inFlight rest w) N)
    as (A & F & P).
  rewrite A, F, P. destruct w. repeat split.
Qed.

(** X5: "load more" has no guard against a second click.  Two clicks
    before either response arrives request the same page twice: both
    responses are appended to [all] and to [filtered], and [currentPage]
    ends one higher, not two. *)
Theorem double_click_appends_twice (w : World) (first second : PageData) :
  inFlight w = [] ->
  (1 <= currentPage w)%Z ->
  items (allExoplanets (run (doubleClick first second) w)) =
    (items (allExoplanets w) ++ exoplanets first ++ exoplanets second)%list /\
  items (filteredExoplanets (run (doubleClick first second) w)) =
    (items (filteredExoplanets w) ++
     exoplanets first ++ exoplanets second)%list /\
  currentPage (run (doubleClick first second) w) = (currentPage w + 1)%Z /\
  inFlight (run (doubleClick first second) w) = [].
Proof.
  intros E P. unfold doubleClick. cbn [run].
  destruct (step_callLoadMore w P) as (w1 & -> & I1 & A1 & F1 & P1).
  rewrite E in I1. cbn [app] in I1.
  destruct (step_callLoadMore w1) as (w2 & -> & I2 & A2 & F2 & P2);
    [ lia | ].
  rewrite I1, P1 in I2. cbn [app] in I2.
  destruct (step_settle_later _ _ first w2 I2)
    as (w3 & -> & I3 & A3 & F3 & P3); [ lia | ].
  destruct (step_settle_later _ _ second w3 I3)
    as (w4 & -> & I4 & A4 & F4 & P4); [ lia | ].
  rewrite A4, F4, A3, F3, A2, F2, A1, F1, P4, I4, <- !app_assoc.
  repeat split.
Qed.

Lemma double_click_appends_twice_witness :
  items (allExoplanets
           (run (doubleClick (mkPageData [trappist1f] true)
                   (mkPageData [trappist1f] true)) twoPlanetsLoaded)) =
    [kepler1b; trappist1e; trappist1f; trappist1f] /\
  currentPage
    (run (doubleClick (mkPageData [trappist1f] true)
            (mkPageData [trappist1f] true)) twoPlanetsLoaded) = 2%Z.
Proof.
  destruct (double_click_appends_twice twoPlanetsLoaded
              (mkPageData [trappist1f] true) (mkPageData [trappist1f] true))
    as (A & _ & P & _).
  - reflexivity.
  - vm_compute. discriminate.
  - split; [ exact A | exact P ].
Defined.

Lemma removeNth_In {A : Type} (x : A) (i : nat) (l : list A) :
  In x (removeNth i l) -> In x l.
Proof.
  revert i. induction l as [ | y l IH ]; intros i; [ destruct i; exact id | ].
  destruct i; cbn [removeNth].
  - intros I. right. exact I.
  - intros [ E | I ]; [ left; exact E | right; apply (IH i I) ].
Qed.

Lemma step_appends (ev : Event) (w : World) :
  PagesPositive w -> ~ In 1%Z (inFlight w) -> ev <> CallLoadExoplanets ->
  (exists suffix,
     items (allExoplanets (step ev w)) =
     (items (allExoplanets w) ++ suffix)%list) /\
  ~ In 1%Z (inFlight (step ev w)).
Proof.
  intros P N C. destruct ev; try congruence; clear C.
  - split; [ exists []; rewrite app_nil_r | ]; destruct w; assumption || reflexivity.
  - split; [ exists []; rewrite app_nil_r | ]; destruct w; assumption || reflexivity.
  - split; [ exists []; rewrite app_nil_r | ]; destruct w; assumption || reflexivity.
  - cbn [step]. destruct (searchExoplanets_store w) as (_ & A & _).
    split; [ exists []; rewrite app_nil_r, A; reflexivity | ].
    revert N. by_cases_of_operation; exact id.
  - cbn [step]. destruct (applyFilters_store w) as (_ & A & _).
    split; [ exists []; rewrite app_nil_r, A; reflexivity | ].
    revert N. by_cases_of_operation; exact id.
  - cbn [step]. destruct (resetFilters_store w) as (_ & A & _).
    split; [ exists []; rewrite app_nil_r, A; reflexivity | ].
    revert N. by_cases_of_operation; exact id.
  - destruct P as (P & _).
    destruct (step_callLoadMore w P) as (v & -> & I & A & _).
    split; [ exists []; rewrite app_nil_r, A; reflexivity | ].
    rewrite I. intros K. apply in_app_or in K as [ K | [ K | [] ] ];
      [ exact (N K) | lia ].
  - cbn [step].
    destruct (nth_error (inFlight w) i) as [ page | ] eqn:E.
    + rewrite settle_inFlight.
      assert (page <> 1%Z)
        by (intros ->; apply N; apply (nth_error_In _ _ E)).
      split.
      * destruct r as [ | | data ].
        -- exists []. rewrite app_nil_r. destruct w; reflexivity.
        -- exists []. rewrite app_nil_r. destruct w; reflexivity.
        -- exists (exoplanets data).
           destruct (settle_later_page_store page data
                       (set_inFlight (removeNth i (inFlight w)) w))
             as (A & _); [ assumption | ].
           rewrite A. destruct w; reflexivity.
      * intros K. apply N. destruct w; cbn in *.
        apply (removeNth_In _ _ _ K).
    + split; [ exists []; rewrite app_nil_r; reflexivity | exact N ].
Qed.

(** X6: [all] is append-only across pagination.  Once the first page is in
    (no request for page 1 is under way and [loadExoplanets()] is not called
    again), whatever the user does and whichever responses arrive, in any
    order, successful or failed, the planets already in [all] stay where
    they are and new ones only come after them. *)
Theorem all_is_append_only (trace : list Event) (w : World) :
  PagesPositive w ->
  ~ In 1%Z (inFlight w) ->
  ~ In CallLoadExoplanets trace ->
  exists suffix,
    items (allExoplanets (run trace w)) =
    (items (allExoplanets w) ++ suffix)%list.
Proof.
  revert w. induction trace as [ | ev trace IH ]; intros w P N C.
  - exists []. rewrite app_nil_r. reflexivity.
  - cbn [run].
    assert (Cev : ev <> CallLoadExoplanets)
      by (intros ->; apply C; left; reflexivity).
    destruct (step_appends ev w P N Cev) as ((s1 & A1) & N1).
    destruct (IH (step ev w)) as (s2 & A2).
    + apply step_PagesPositive, P.
    + exact N1.
    + intros K. apply C. right. exact K.
    + exists (s1 ++ s2)%list. rewrite A2, A1, app_assoc. reflexivity.
Qed.

Lemma all_is_append_only_witness :
  exists suffix,
    items (allExoplanets
             (run [EditSearchInput "kepler"; RunSearchExoplanets;
                   CallLoadMoreExoplanets;
                   Settle 0 (Resolved (mkPageData [trappist1f] false))]
                twoPlanetsLoaded)) =
    ([kepler1b; trappist1e] ++ suffix)%list.
Proof.
  apply (all_is_append_only _ twoPlanetsLoaded).
  - split; [ vm_compute; discriminate | constructor ].
  - intros [].
  - cbn. intros [ K | [ K | [ K | [ K | [] ] ] ] ]; discriminate K.
Defined.

(** ** How search and filters compose *)

Lemma handlers_keep_controls (w : World) :
  (searchInput (searchExoplanets w) = searchInput w /\
   discoveryMethodFilter (searchExoplanets w) = discoveryMethodFilter w /\
   habitableFilter (searchExoplanets w) = habitableFilter w) /\
  (searchInput (applyFilters w) = searchInput w /\
   discoveryMethodFilter (applyFilters w) = discoveryMethodFilter w /\
   habitableFilter (applyFilters w) = habitableFilter w).
Proof. by_cases_of_operation; repeat split. Qed.

(** X7: search and the category filters do not combine.  Each handler
    recomputes [filtered] from the whole of [all], so [applyFilters] after a
    search drops the search, a search after [applyFilters] drops the
    category filters, and running either handler twice changes nothing
    more. *)
Theorem later_handler_overrides_earlier (w : World) :
  items (filteredExoplanets (applyFilters (searchExoplanets w))) =
    items (filteredExoplanets (applyFilters w)) /\
  items (filteredExoplanets (searchExoplanets (applyFilters w))) =
    items (filteredExoplanets (searchExoplanets w)) /\
  items (filteredExoplanets (searchExoplanets (searchExoplanets w))) =
    items (filteredExoplanets (searchExoplanets w)) /\
  items (filteredExoplanets (applyFilters (applyFilters w))) =
    items (filteredExoplanets (applyFilters w)).
Proof.
  destruct (handlers_keep_controls w) as ((S1 & M1 & H1) & (S2 & M2 & H2)).
  destruct (searchExoplanets_store w) as (FS & AS & _).
  destruct (applyFilters_store w) as (FA & AA & _).
  destruct (applyFilters_store (searchExoplanets w)) as (FAS & _).
  destruct (searchExoplanets_store (applyFilters w)) as (FSA & _).
  destruct (searchExoplanets_store (searchExoplanets w)) as (FSS & _).
  destruct (applyFilters_store (applyFilters w)) as (FAA & _).
  rewrite FAS, FSA, FSS, FAA, FS, FA, AS, AA, S1, M1, H1, S2, M2, H2.
  repeat split.
Qed.

Lemma append_assoc (a b c : string) : (a ++ b) ++ c = a ++ b ++ c.
Proof. induction a as [ | x a IH ]; simpl; [ | rewrite IH ]; reflexivity. Qed.

Lemma ContainsIgnoringCase_narrow (s pre t post : string) :
  ContainsIgnoringCase s (pre ++ t ++ post) -> ContainsIgnoringCase s t.
Proof.
  intros (a & mid & b & -> & L).
  apply toLowerCase_EqualIgnoringCase in L.
  rewrite !toLowerCase_app in L.
  apply toLowerCase_split in L as (m1 & rest & -> & _ & L).
  apply toLowerCase_split in L as (m2 & m3 & -> & L & _).
  exists (a ++ m1), m2, (m3 ++ b).
  split; [ | apply toLowerCase_EqualIgnoringCase, L ].
  rewrite !append_assoc. reflexivity.
Qed.

Lemma SearchMatches_narrow (pre t post : string) (planet : Exoplanet) :
  SearchMatches (pre ++ t ++ post) planet -> SearchMatches t planet.
Proof.
  intros [ N | (h & E & H) ].
  - left. apply (ContainsIgnoringCase_narrow _ _ _ _ N).
  - right. exists h. split; [ exact E | ].
    apply (ContainsIgnoringCase_narrow _ _ _ _ H).
Qed.

Lemma Subsequence_filter_filter {A : Type} (f g : A -> bool) (l : list A) :
  (forall x, f x = true -> g x = true) ->
  Subsequence (filter f l) (filter g l).
Proof.
  intros I. induction l as [ | x l IH ]; simpl; [ constructor | ].
  destruct (f x) eqn:F.
  - rewrite (I x F). apply Subsequence_keep. exact IH.
  - destruct (g x); [ apply Subsequence_skip | ]; exact IH.
Qed.

Lemma search_with (term : string) (w : World) :
  items (filteredExoplanets (searchExoplanets (set_searchInput term w))) =
  filter (searchCallback (JsString.toLowerCase term))
    (items (allExoplanets w)).
Proof.
  destruct (searchExoplanets_store (set_searchInput term w)) as (S & _).
  rewrite S. destruct w. reflexivity.
Qed.

(** X8: typing more never brings planets back.  If the text of the search
    box contains an earlier text (more characters before or after it), the
    planets found for it are a subsequence of the planets found for the
    earlier text; and two texts that differ only in the case of their
    letters find the same planets.  The texts, the names and the host names
    are ASCII strings. *)
Theorem longer_search_text_narrows (w : World) (pre t post : string) :
  isAscii pre = true -> isAscii t = true -> isAscii post = true ->
  asciiNames (items (allExoplanets w)) = true ->
  Subsequence
    (items (filteredExoplanets
              (searchExoplanets (set_searchInput (pre ++ t ++ post) w))))
    (items (filteredExoplanets (searchExoplanets (set_searchInput t w)))) /\
  (forall t' : string,
     isAscii t' = true ->
     EqualIgnoringCase t' t ->
     items (filteredExoplanets (searchExoplanets (set_searchInput t' w))) =
     items (filteredExoplanets (searchExoplanets (set_searchInput t w)))).
Proof.
  intros _ _ _ _. rewrite !search_with. split.
  - apply Subsequence_filter_filter. intros planet.
    rewrite !searchCallback_spec. apply SearchMatches_narrow.
  - intros t' _ E. apply toLowerCase_EqualIgnoringCase in E.
    rewrite search_with, E. reflexivity.
Qed.

Lemma longer_search_text_narrows_witness :
  Subsequence
    (items (filteredExoplanets
              (searchExoplanets (set_searchInput "Kepler-1" twoPlanetsLoaded))))
    (items (filteredExoplanets
              (searchExoplanets (set_searchInput "ler" twoPlanetsLoaded)))) /\
  items (filteredExoplanets
           (searchExoplanets (set_searchInput "LER" twoPlanetsLoaded))) =
  items (filteredExoplanets
           (searchExoplanets (set_searchInput "ler" twoPlanetsLoaded))).
Proof.
  destruct (longer_search_text_narrows twoPlanetsLoaded "Kep" "ler" "-1"
              eq_refl eq_refl eq_refl eq_refl) as (narrows & same).
  split; [ exact narrows | ].
  apply same; [ reflexivity | ].
  repeat (constructor; [ right; left; cbn; lia | ]). constructor.
Defined.

(** ** The habitability selections *)

Lemma SFcompare_antisym (x y : spec_float) :
  SFcompare y x = option_map CompOpp (SFcompare x y).
Proof.
  destruct x as [ [|] | [|] | | [|] mx ex ], y as [ [|] | [|] | | [|] my ey ];
    simpl; try reflexivity;
    rewrite (Z.compare_antisym ey ex); destruct (ey ?= ex)%Z; simpl;
    try reflexivity;
    change (Pos.compare_cont Eq) with Pos.compare;
    rewrite (Pos.compare_antisym my mx); rewrite ?CompOpp_involutive;
    reflexivity.
Qed.

Lemma not_nan_Prim2SF (x : float) :
  PrimFloat.is_nan x = false -> Prim2SF x <> S754_nan.
Proof.
  unfold PrimFloat.is_nan. rewrite FloatAxioms.eqb_spec. intros N E.
  rewrite E in N. discriminate N.
Qed.

(** Two numbers, neither of them NaN, are ordered one way or the other. *)
Lemma ltb_negb_leb (x y : float) :
  PrimFloat.is_nan x = false -> PrimFloat.is_nan y = false ->
  PrimFloat.ltb x y = negb (PrimFloat.leb y x).
Proof.
  intros Nx Ny. apply not_nan_Prim2SF in Nx, Ny.
  rewrite FloatAxioms.ltb_spec, FloatAxioms.leb_spec.
  unfold SFltb, SFleb. rewrite (SFcompare_antisym (Prim2SF x) (Prim2SF y)).
  destruct (Prim2SF x) as [ [|] | [|] | | [|] mx ex ];
    destruct (Prim2SF y) as [ [|] | [|] | | [|] my ey ];
    try congruence; try reflexivity; simpl;
    destruct (ex ?= ey)%Z; try reflexivity;
    destruct (Pos.compare_cont Eq mx my); reflexivity.
Qed.

(** X9: for a planet whose radius is a number other than zero and NaN, the
    three habitability selections are exclusive and exhaustive: exactly one
    of "habitable", "hot" and "cold" keeps it.  A planet without radius, or
    with a radius of zero or NaN, is kept by all three. *)
Theorem habitability_selections_partition (planet : Exoplanet) :
  (truthyNumber (pl_rade planet) = true ->
   (matchesHabitable "habitable" planet = true /\
    matchesHabitable "hot" planet = false /\
    matchesHabitable "cold" planet = false) \/
   (matchesHabitable "habitable" planet = false /\
    matchesHabitable "hot" planet = true /\
    matchesHabitable "cold" planet = false) \/
   (matchesHabitable "habitable" planet = false /\
    matchesHabitable "hot" planet = false /\
    matchesHabitable "cold" planet = true)) /\
  (truthyNumber (pl_rade planet) = false ->
   forall habitableFilter : string,
     matchesHabitable habitableFilter planet = true).
Proof.
  unfold truthyNumber, matchesHabitable. split.
  - destruct (pl_rade planet) as [ radius | ]; [ | discriminate ].
    intros T. rewrite T. cbn.
    unfold JsNumber.ge, JsNumber.le, JsNumber.lt, JsNumber.gt.
    assert (N : PrimFloat.is_nan radius = false).
    { unfold JsNumber.toBoolean in T.
      destruct (PrimFloat.is_nan radius); [ | reflexivity ].
      rewrite orb_true_r in T. discriminate T. }
    rewrite (ltb_negb_leb radius 0.5 N eq_refl).
    rewrite (ltb_negb_leb 1.5 radius eq_refl N).
    destruct (PrimFloat.leb 0.5 radius) eqn:Lo;
      destruct (PrimFloat.leb radius 1.5) eqn:Hi; cbn; auto.
    exfalso.
    assert (L : PrimFloat.ltb radius 0.5 = true)
      by (rewrite (ltb_negb_leb radius 0.5 N eq_refl), Lo; reflexivity).
    assert (G : PrimFloat.ltb 1.5 radius = true)
      by (rewrite (ltb_negb_leb 1.5 radius eq_refl N), Hi; reflexivity).
    assert (K : PrimFloat.leb 1.5 radius = true).
    { rewrite FloatAxioms.leb_spec. rewrite FloatAxioms.ltb_spec in G.
      unfold SFleb. unfold SFltb in G.
      destruct (SFcompare (Prim2SF 1.5) (Prim2SF radius)) as [ [ | | ] | ];
        congruence. }
    pose proof (leb_ltb_trans _ _ _ K L) as A. vm_compute in A.
    discriminate A.
  - destruct (pl_rade planet) as [ radius | ]; [ | reflexivity ].
    intros T hf. rewrite T, andb_false_r. reflexivity.
Qed.

Lemma habitability_selections_partition_witness :
  matchesHabitable "habitable" (planetWith "p" (Some 0.4999%float)) = false /\
  matchesHabitable "hot" (planetWith "p" (Some 0.4999%float)) = true /\
  matchesHabitable "cold" (planetWith "p" (Some 0.4999%float)) = false.
Proof.
  destruct (habitability_selections_partition
              (planetWith "p" (Some 0.4999%float))) as (one & _).
  destruct (one eq_refl) as [ (H & _) | [ K | (_ & H & _) ] ].
  - vm_compute in H. discriminate H.
  - exact K.
  - vm_compute in H. discriminate H.
Defined.

(** ** The order of the badges *)

(** X10: the planet type grows with the radius.  Of two planets whose radii
    are numbers other than zero and NaN, the one with the larger radius
    never gets the badge of a smaller class (Earth-like, Super-Earth,
    Neptune-like, Jupiter-like, in this order). *)
Theorem getPlanetType_is_monotone (p1 p2 : Exoplanet) (r1 r2 : float) :
  pl_rade p1 = Some r1 -> pl_rade p2 = Some r2 ->
  JsNumber.toBoolean r1 = true -> JsNumber.toBoolean r2 = true ->
  JsNumber.le r1 r2 = true ->
  (badgeRank (getPlanetType p1) <= badgeRank (getPlanetType p2))%nat.
Proof.
  intros E1 E2 T1 T2 L. unfold JsNumber.le in L.
  rewrite (getPlanetType_truthy p1 r1 E1 T1).
  rewrite (getPlanetType_truthy p2 r2 E2 T2).
  pose proof (fun c => leb_ltb_trans r1 r2 c L) as below.
  destruct (PrimFloat.ltb r2 1.25) eqn:A2.
  { rewrite (below _ A2). cbn. lia. }
  destruct (PrimFloat.ltb r2 2) eqn:B2.
  { rewrite (below _ B2). destruct (PrimFloat.ltb r1 1.25); cbn; lia. }
  destruct (PrimFloat.ltb r2 6) eqn:C2.
  { rewrite (below _ C2).
    destruct (PrimFloat.ltb r1 1.25), (PrimFloat.ltb r1 2); cbn; lia. }
  destruct (PrimFloat.ltb r1 1.25), (PrimFloat.ltb r1 2),
    (PrimFloat.ltb r1 6); cbn; lia.
Qed.

Lemma getPlanetType_is_monotone_witness :
  (badgeRank (getPlanetType (planetWith "a" (Some 1.9999%float))) <=
   badgeRank (getPlanetType (planetWith "b" (Some 2%float))))%nat.
Proof.
  apply (getPlanetType_is_monotone _ _ 1.9999%float 2%float);
    reflexivity.
Defined.

(** ** A prediction without a usable probability *)

Lemma nan_times (x y : float) :
  PrimFloat.is_nan x = true -> PrimFloat.is_nan (x * y) = true.
Proof.
  intros N. apply is_nan_Prim2SF in N.
  unfold PrimFloat.is_nan.
  rewrite FloatAxioms.eqb_spec, FloatAxioms.mul_spec, N. reflexivity.
Qed.

Lemma nan_not_above (x y : float) :
  PrimFloat.is_nan x = true ->
  PrimFloat.ltb y x = false /\ PrimFloat.leb x y = false.
Proof.
  intros N. apply is_nan_Prim2SF in N.
  rewrite FloatAxioms.ltb_spec, FloatAxioms.leb_spec, N.
  split; [ | reflexivity ].
  destruct (Prim2SF y) as [ s | s | | s m e ]; reflexivity.
Qed.

(** X11: when the probability of a prediction is NaN (which is what the
    arithmetic of the script makes of a missing [probability]), the verdict
    rests on the prediction flag alone and the panel shows "NaN%" as the
    confidence and as the width of the confidence bar. *)
Theorem nan_probability_shows_NaN
    (NumberToString : float -> string) (result : PredictionResult) :
  PrimFloat.is_nan (probability result) = true ->
  hasExoplanet result = PrimFloat.eqb (prediction result) 1 /\
  confidence NumberToString result = "NaN" /\
  detail_confidence (displayPredictionResult NumberToString result) =
    "NaN%" /\
  confidence_fill_width (displayPredictionResult NumberToString result) =
    "NaN%" /\
  confidence_fill_text (displayPredictionResult NumberToString result) =
    "NaN% Confidence".
Proof.
  intros N.
  assert (C : confidence NumberToString result = "NaN").
  { unfold confidence, JsNumber.toFixed.
    rewrite (nan_times _ 100 N). reflexivity. }
  split.
  { unfold hasExoplanet, JsNumber.gt, JsNumber.strictEq.
    rewrite (proj1 (nan_not_above _ 0.5 N)). apply orb_false_r. }
  split; [ exact C | ].
  cbn [displayPredictionResult detail_confidence confidence_fill_width
       confidence_fill_text].
  rewrite C. repeat split.
Qed.

Lemma nan_probability_shows_NaN_witness :
  confidence (fun _ => "") (mkPredictionResult 1 nan None None) = "NaN" /\
  hasExoplanet (mkPredictionResult 1 nan None None) = true.
Proof.
  destruct (nan_probability_shows_NaN (fun _ => "")
              (mkPredictionResult 1 nan None None) eq_refl) as (V & C & _).
  split; [ exact C | rewrite V; reflexivity ].
Defined.

(** ** The detail modal *)

Lemma with_unit_not_Unknown (s : string) :
  s ++ " ly" <> "Unknown" /\ s ++ " days" <> "Unknown" /\
  s ++ " K" <> "Unknown" /\ s ++ " R⊕" <> "Unknown" /\
  s ++ " M⊕" <> "Unknown" /\ s ++ " R☉" <> "Unknown".
Proof.
  repeat split; intros E;
    repeat (destruct s as [ | ? s ];
            [ discriminate E | cbn [append] in E; injection E as _ E ]);
    destruct s; cbn [append] in E; discriminate E.
Qed.

Lemma fixedOrUnknown_Unknown (NumberToString : float -> string)
    (field : option float) (unit : string) :
  (forall s : string, s ++ unit <> "Unknown") ->
  (fixedOrUnknown NumberToString field unit = "Unknown" <->
   truthyNumber field = false).
Proof.
  intros U. unfold fixedOrUnknown, truthyNumber.
  destruct field as [ x | ]; [ | tauto ].
  destruct (JsNumber.toBoolean x); [ | tauto ].
  split; [ intros E; destruct (U _ E) | discriminate ].
Qed.

(** X12: in the detail view a measured quantity (planet radius, planet
    mass, orbital period, distance, star temperature, star radius) reads
    "Unknown" exactly when the planet has no such number or the number is
    zero or NaN; a zero that the archive reports is thus shown as unknown.
    In every other case the row ends in its unit. *)
Theorem detail_rows_unknown_iff_falsy
    (NumberToString : float -> string) (planet : Exoplanet) (m : Modal) :
  exists view : DetailView,
    modalBody (showPlanetDetails NumberToString planet m) = Some view /\
    modalActive (showPlanetDetails NumberToString planet m) = true /\
    (modal_planet_radius view = "Unknown" <->
     truthyNumber (pl_rade planet) = false) /\
    (modal_planet_mass view = "Unknown" <->
     truthyNumber (pl_bmasse planet) = false) /\
    (modal_orbital_period view = "Unknown" <->
     truthyNumber (pl_orbper planet) = false) /\
    (modal_distance view = "Unknown" <->
     truthyNumber (sy_dist planet) = false) /\
    (modal_star_temperature view = "Unknown" <->
     truthyNumber (st_teff planet) = false) /\
    (modal_star_radius view = "Unknown" <->
     truthyNumber (st_rad planet) = false).
Proof.
  eexists. split; [ reflexivity | ]. split; [ reflexivity | ].
  cbn [modal_planet_radius modal_planet_mass modal_orbital_period
       modal_distance modal_star_temperature modal_star_radius].
  repeat split;
    try (apply fixedOrUnknown_Unknown; intros s; apply with_unit_not_Unknown);
    try (apply fixedOrUnknown_Unknown; assumption).
  - unfold truthyNumber. destruct (st_teff planet) as [ t | ]; [ | tauto ].
    destruct (JsNumber.toBoolean t); [ | tauto ].
    intros E. destruct (proj1 (proj2 (proj2 (with_unit_not_Unknown _))) E).
  - unfold truthyNumber. destruct (st_teff planet) as [ t | ]; [ | tauto ].
    destruct (JsNumber.toBoolean t); [ discriminate | tauto ].
Qed.

Lemma fixedOrUnknown_rounds (NumberToString : float -> string)
    (field : option float) (unit : string) (x : float) :
  field = Some x ->
  JsNumber.toBoolean x = true ->
  PrimFloat.ltb (PrimFloat.abs x) 1e21 = true ->
  ShowsRounded x unit (fixedOrUnknown NumberToString field unit).
Proof.
  intros -> T B. unfold fixedOrUnknown. rewrite T.
  destruct (toFixed_writes NumberToString x B 2 (le_S 1 1 (le_n 1)))
    as (size & n & digits & V & R & W & F).
  exists size, n, digits.
  split; [ exact V | ]. split; [ exact R | ]. split; [ exact W | ].
  rewrite F. apply append_assoc.
Qed.

(** X13: a radius, mass, period, distance or star radius that is present,
    not zero and below 10^21 in magnitude is shown in the detail view
    rounded to two decimals (ties upwards in magnitude), with its sign and
    followed by its unit. *)
Theorem detail_rows_round_to_two_decimals
    (NumberToString : float -> string) (planet : Exoplanet) (m : Modal)
    (x : float) :
  JsNumber.toBoolean x = true ->
  PrimFloat.ltb (PrimFloat.abs x) 1e21 = true ->
  exists view : DetailView,
    modalBody (showPlanetDetails NumberToString planet m) = Some view /\
    (pl_rade planet = Some x ->
     ShowsRounded x " R⊕" (modal_planet_radius view)) /\
    (pl_bmasse planet = Some x ->
     ShowsRounded x " M⊕" (modal_planet_mass view)) /\
    (pl_orbper planet = Some x ->
     ShowsRounded x " days" (modal_orbital_period view)) /\
    (sy_dist planet = Some x ->
     ShowsRounded x " ly" (modal_distance view)) /\
    (st_rad planet = Some x ->
     ShowsRounded x " R☉" (modal_star_radius view)).
Proof.
  intros T B. eexists. split; [ reflexivity | ].
  cbn [modal_planet_radius modal_planet_mass modal_orbital_period
       modal_distance modal_star_radius].
  repeat split; intros E; apply fixedOrUnknown_rounds; assumption.
Qed.

Lemma detail_rows_round_to_two_decimals_witness :
  exists view : DetailView,
    modalBody
      (showPlanetDetails (fun _ => "")
         (mkExoplanet "Proxima b" None None None (Some 4.2465%float)
            None None None None None)
         (mkModal false None)) = Some view /\
    ShowsRounded 4.2465 " ly" (modal_distance view) /\
    modal_distance view = "4.25 ly".
Proof.
  destruct (detail_rows_round_to_two_decimals (fun _ => "")
              (mkExoplanet "Proxima b" None None None (Some 4.2465%float)
                 None None None None None)
              (mkModal false None) 4.2465%float eq_refl eq_refl)
    as (view & B & _ & _ & _ & D & _).
  exists view. split; [ exact B | ]. split; [ apply D; reflexivity | ].
  injection B as <-. reflexivity.
Defined.

(** ** The animated counters *)

Section CounterProperties.

Variable toLocaleString : float -> string.
Variable mathFloor : float -> float.
Variable targetValue : float.

Lemma counterTick_cleared (c : Counter) :
  timerSet c = false ->
  counterTick toLocaleString mathFloor targetValue c = c.
Proof. intros E. unfold counterTick. rewrite E. reflexivity. Qed.

Lemma counterTick_shows_target (c : Counter) :
  (timerSet c = false -> counterText c = toLocaleString targetValue) ->
  timerSet (counterTick toLocaleString mathFloor targetValue c) = false ->
  counterText (counterTick toLocaleString mathFloor targetValue c) =
    toLocaleString targetValue.
Proof.
  unfold counterTick. intros I.
  destruct (timerSet c) eqn:S; [ | intros _; apply I; reflexivity ].
  destruct (JsNumber.ge _ targetValue); [ reflexivity | discriminate ].
Qed.

Lemma counterTicks_shows_target (n : nat) (c : Counter) :
  (timerSet c = false -> counterText c = toLocaleString targetValue) ->
  timerSet (counterTicks toLocaleString mathFloor n targetValue c) = false ->
  counterText (counterTicks toLocaleString mathFloor n targetValue c) =
    toLocaleString targetValue.
Proof.
  revert c. induction n as [ | n IH ]; intros c I; [ exact I | ].
  cbn [counterTicks]. apply IH. apply counterTick_shows_target, I.
Qed.

Lemma counterTicks_cleared (n : nat) (c : Counter) :
  timerSet c = false ->
  counterTicks toLocaleString mathFloor n targetValue c = c.
Proof.
  revert c. induction n as [ | n IH ]; intros c E; [ reflexivity | ].
  cbn [counterTicks]. rewrite counterTick_cleared by exact E. apply IH, E.
Qed.

Lemma counterTicks_add (n k : nat) (c : Counter) :
  counterTicks toLocaleString mathFloor (n + k) targetValue c =
  counterTicks toLocaleString mathFloor k targetValue
    (counterTicks toLocaleString mathFloor n targetValue c).
Proof.
  revert c. induction n as [ | n IH ]; intros c; [ reflexivity | ].
  cbn [counterTicks Nat.add]. apply IH.
Qed.

End CounterProperties.

(** X14: a counter that has stopped shows its target.  Whenever the
    interval timer of [animateCounter] has been cleared, the element holds
    the target value itself, formatted, and not a rounded intermediate
    value; from then on nothing changes it. *)
Theorem stopped_counter_shows_target
    (toLocaleString : float -> string) (mathFloor : float -> float)
    (targetValue : float) (text : string) (n : nat) :
  timerSet
    (counterTicks toLocaleString mathFloor n targetValue
       (animateCounter targetValue text)) = false ->
  counterText
    (counterTicks toLocaleString mathFloor n targetValue
       (animateCounter targetValue text)) = toLocaleString targetValue /\
  (forall k : nat,
     counterTicks toLocaleString mathFloor (n + k) targetValue
       (animateCounter targetValue text) =
     counterTicks toLocaleString mathFloor n targetValue
       (animateCounter targetValue text)).
Proof.
  intros S. split.
  - apply counterTicks_shows_target; [ discriminate | exact S ].
  - intros k. rewrite counterTicks_add.
    apply counterTicks_cleared, S.
Qed.

Lemma stopped_counter_shows_target_witness :
  counterText
    (counterTicks (fun _ => "5,000") (fun x => x) 125 5000
       (animateCounter 5000 "0")) = "5,000".
Proof.
  apply (stopped_counter_shows_target (fun _ => "5,000") (fun x => x)
           5000 "0" 125).
  vm_compute. reflexivity.
Defined.

Lemma nan_plus (x y : float) :
  PrimFloat.is_nan y = true -> PrimFloat.is_nan (x + y) = true.
Proof.
  intros N. apply is_nan_Prim2SF in N. unfold PrimFloat.is_nan.
  rewrite FloatAxioms.eqb_spec, FloatAxioms.add_spec, N.
  unfold SF64add. destruct (Prim2SF x) as [ s | s | | s m e ]; reflexivity.
Qed.

Lemma nan_divided (x y : float) :
  PrimFloat.is_nan x = true -> PrimFloat.is_nan (x / y) = true.
Proof.
  intros N. apply is_nan_Prim2SF in N. unfold PrimFloat.is_nan.
  rewrite FloatAxioms.eqb_spec, FloatAxioms.div_spec, N. reflexivity.
Qed.

(** X15: a counter whose target is NaN (which is what the arithmetic of
    the script makes of a statistic missing from the response) never
    stops: its timer is still set after any number of ticks. *)
Theorem counter_with_nan_target_never_stops
    (toLocaleString : float -> string) (mathFloor : float -> float)
    (targetValue : float) (text : string) (n : nat) :
  PrimFloat.is_nan targetValue = true ->
  timerSet
    (counterTicks toLocaleString mathFloor n targetValue
       (animateCounter targetValue text)) = true.
Proof.
  intros N.
  assert (running : forall c : Counter,
            timerSet c = true ->
            timerSet
              (counterTicks toLocaleString mathFloor n targetValue c) = true).
  { induction n as [ | k IH ]; intros c S; [ exact S | ].
    cbn [counterTicks]. apply IH.
    unfold counterTick. rewrite S. unfold JsNumber.ge.
    rewrite (proj2 (nan_not_above targetValue _ N)). reflexivity. }
  apply running. reflexivity.
Qed.

Lemma counter_with_nan_target_never_stops_witness :
  timerSet
    (counterTicks (fun _ => "NaN") (fun x => x) 1000 nan
       (animateCounter nan "0")) = true.
Proof.
  apply (counter_with_nan_target_never_stops (fun _ => "NaN") (fun x => x)
           nan "0" 1000).
  reflexivity.
Defined.

(** ** Selections that filter nothing *)

(** X16: [applyFilters] keeps every planet of [all], in order, when no
    method is selected and the habitability selection is empty or is not
    one of "habitable", "hot" and "cold"; unlike [resetFilters] it leaves
    the text of the search box in place. *)
Theorem applyFilters_without_selection_keeps_all (w : World) :
  discoveryMethodFilter w = "" ->
  habitableFilter w <> "habitable" ->
  habitableFilter w <> "hot" ->
  habitableFilter w <> "cold" ->
  items (filteredExoplanets (applyFilters w)) = items (allExoplanets w) /\
  searchInput (applyFilters w) = searchInput w.
Proof.
  intros M H1 H2 H3.
  destruct (applyFilters_store w) as (S & _).
  destruct (handlers_keep_controls w) as (_ & (I & _)).
  split; [ | exact I ].
  rewrite S. apply filter_everything. intros planet.
  unfold filterCallback, matchesMethod, matchesHabitable. rewrite M.
  apply String.eqb_neq in H1, H2, H3. rewrite H1, H2, H3.
  destruct (discoverymethod planet), (pl_rade planet);
    cbn [JsString.toBoolean andb];
    repeat match goal with
    | |- context [if ?b then _ else _] => destruct b
    end; reflexivity.
Qed.

Lemma applyFilters_without_selection_keeps_all_witness :
  items (filteredExoplanets (applyFilters twoPlanetsLoaded)) =
    [kepler1b; trappist1e].
Proof.
  apply (applyFilters_without_selection_keeps_all twoPlanetsLoaded);
    (reflexivity || discriminate).
Defined.
